(** * anylist-cli: a shallow embedding of the CLI layer

    Sources: [src/src/types.ts] (client wrapper and command actions) and
    [src/src/config.ts] (credential storage).

    JavaScript strings are sequences of UTF-16 code units, modelled as
    [list N].  The runtime's [String.prototype.toLowerCase] and the user's
    home directory are parameters of the development (section [JSRuntime]).
    The remote service, reached through the anylist library, is modelled by
    its in-memory objects and by an oracle deciding which remote call
    rejects. *)

From Stdlib Require Import List String Ascii NArith ZArith Bool Lia.
Import ListNotations.
Open Scope N_scope.

(** ** JavaScript strings and values *)

Definition jsstr := list N.

(** A string literal of the source, as UTF-16 code units (the literals of
    the source are ASCII). *)
Fixpoint js (s : string) : jsstr :=
  match s with
  | EmptyString => []
  | String a s' => N_of_ascii a :: js s'
  end.

(** [===] on strings. *)
Fixpoint jsstr_eqb (s t : jsstr) : bool :=
  match s, t with
  | [], [] => true
  | a :: s', b :: t' => N.eqb a b && jsstr_eqb s' t'
  | _, _ => false
  end.

(** Truthiness of a string ([""] is falsy). *)
Definition str_truthy (s : jsstr) : bool :=
  match s with [] => false | _ => true end.

(** A string-or-undefined, as the optional parameters and fields are. *)
Definition opt_truthy (o : option jsstr) : bool :=
  match o with Some s => str_truthy s | None => false end.

(** [x || ""] *)
Definition or_empty (o : option jsstr) : jsstr :=
  match o with Some s => if str_truthy s then s else [] | None => [] end.

(** The values a property lookup on a plain object literal can produce:
    an own string property, an inherited member of [Object.prototype]
    (a function, or the prototype object itself for [__proto__]), or
    [undefined]. *)
Inductive JSValue :=
| JUndefined
| JString (s : jsstr)
| JFunction (name : jsstr)
| JObject.

Definition val_truthy (v : JSValue) : bool :=
  match v with
  | JUndefined => false
  | JString s => str_truthy s
  | JFunction _ | JObject => true
  end.

(** [v || "other"] *)
Definition or_other (v : JSValue) : JSValue :=
  if val_truthy v then v else JString (js "other").

(** ASCII case folding of one code unit: [A-Z] to [a-z]. *)
Definition ascii_fold (c : N) : N :=
  if (65 <=? c) && (c <=? 90) then c + 32 else c.

(** Equality ignoring ASCII case (the notion the specification uses). *)
Fixpoint ascii_ci_eq (s t : jsstr) : bool :=
  match s, t with
  | [], [] => true
  | a :: s', b :: t' => N.eqb (ascii_fold a) (ascii_fold b) && ascii_ci_eq s' t'
  | _, _ => false
  end.

(** [String.prototype.toLowerCase] on the code units used by the concrete
    runs below: ASCII [A-Z] and U+212A KELVIN SIGN, whose Unicode lowercase
    mapping is U+006B [k].  Every other code unit is left as it is, so this
    agrees with the JavaScript method on strings made of ASCII and
    U+212A code units (all the inputs it is applied to here). *)
Definition lower_unit_sample (c : N) : N :=
  if (65 <=? c) && (c <=? 90) then c + 32
  else if N.eqb c 8490 then 107 else c.

Definition toLowerCase_sample (s : jsstr) : jsstr := map lower_unit_sample s.

(** ** Objects of the anylist library

    Every object carries a reference ([i_ref], [l_ref]): its identity, which
    the source relies on when it mutates an item it found or removes it
    from its list. *)

Record Item := mkItem {
  i_ref : nat;
  i_name : jsstr;
  i_quantity : option jsstr;
  i_checked : bool;
  i_identifier : jsstr;
  i_categoryMatchId : JSValue;
  i_details : option jsstr
}.

Record AnyListList := mkList {
  l_ref : nat;
  l_name : jsstr;
  l_identifier : jsstr;
  l_items : list Item
}.

(** [ItemInfo] as built by [checkItem], [addItem], ... *)
Record ItemInfo := mkInfo {
  info_name : jsstr;
  info_quantity : jsstr;
  info_details : jsstr;
  info_checked : bool;
  info_identifier : jsstr;
  info_categoryMatchId : JSValue
}.

Definition item_info (it : Item) : ItemInfo :=
  {| info_name := i_name it;
     info_quantity := or_empty (i_quantity it);
     info_details := or_empty (i_details it);
     info_checked := i_checked it;
     info_identifier := i_identifier it;
     info_categoryMatchId := or_other (i_categoryMatchId it) |}.

(** The anylist library's [List.getItemByName]: the first item whose name
    is [===] to the argument. *)
Definition getItemByName (list : AnyListList) (name : jsstr) : option Item :=
  find (fun i => jsstr_eqb (i_name i) name) (l_items list).

(** The anylist library's [AnyList.getListByName] over the fetched lists:
    the first list whose name is [===] to the argument. *)
Definition client_getListByName (lists : list AnyListList) (name : jsstr)
  : option AnyListList :=
  find (fun l => jsstr_eqb (l_name l) name) lists.

Section JSRuntime.

(** The runtime's [String.prototype.toLowerCase]. *)
Variable toLowerCase : jsstr -> jsstr.

(** [findItemByName] (types.ts, lines 189-202). *)
Definition findItemByName (list : AnyListList) (name : jsstr) : option Item :=
  match getItemByName list name with
  | Some exactMatch => Some exactMatch
  | None =>
      let lowerName := toLowerCase name in
      find (fun i => jsstr_eqb (toLowerCase (i_name i)) lowerName) (l_items list)
  end.


(** ** The JSON texts of the config file

    [JSON.stringify] (ES2019 well-formed [QuoteJSONString]) and the part of
    [JSON.parse] that reads an object whose members are all strings; any
    other text counts as a parse failure ([None]). *)

Definition hexdigit (d : N) : N := if d <? 10 then 48 + d else 87 + d.

(** [\uXXXX] with lowercase hexadecimal digits. *)
Definition uescape (c : N) : jsstr :=
  let c1 := c / 16 in let c2 := c1 / 16 in let c3 := c2 / 16 in
  [92; 117; hexdigit (c3 mod 16); hexdigit (c2 mod 16);
   hexdigit (c1 mod 16); hexdigit (c mod 16)].

Definition is_high (c : N) : bool := (55296 <=? c) && (c <=? 56319).
Definition is_low (c : N) : bool := (56320 <=? c) && (c <=? 57343).

(** One code unit that is not the first half of a surrogate pair. *)
Definition esc1 (c : N) : jsstr :=
  if c =? 34 then [92; 34]
  else if c =? 92 then [92; 92]
  else if c =? 8 then [92; 98]
  else if c =? 12 then [92; 102]
  else if c =? 10 then [92; 110]
  else if c =? 13 then [92; 114]
  else if c =? 9 then [92; 116]
  else if (c <? 32) || is_high c || is_low c then uescape c
  else [c].

Fixpoint json_escape (s : jsstr) : jsstr :=
  match s with
  | [] => []
  | c :: rest =>
      if is_high c then
        match rest with
        | d :: rest' => if is_low d then c :: d :: json_escape rest'
                        else esc1 c ++ json_escape rest
        | [] => esc1 c
        end
      else esc1 c ++ json_escape rest
  end.

Record AnyListConfig := mkConfig { email : jsstr; password : jsstr }.

(** [JSON.stringify(config, null, 2)] for [{ email, password }]. *)
Definition stringify_config (c : AnyListConfig) : jsstr :=
  [123; 10; 32; 32; 34] ++ json_escape (js "email") ++
  34 :: 58 :: 32 :: 34 :: json_escape (email c) ++
  34 :: 44 :: 10 :: 32 :: 32 :: 34 :: json_escape (js "password") ++
  34 :: 58 :: 32 :: 34 :: json_escape (password c) ++
  [34; 10; 125].

Definition hexval (d : N) : option N :=
  if (48 <=? d) && (d <=? 57) then Some (d - 48)
  else if (97 <=? d) && (d <=? 102) then Some (d - 87)
  else if (65 <=? d) && (d <=? 70) then Some (d - 55)
  else None.

Definition simple_escape (e : N) : option N :=
  if e =? 34 then Some 34 else if e =? 92 then Some 92
  else if e =? 47 then Some 47 else if e =? 98 then Some 8
  else if e =? 102 then Some 12 else if e =? 110 then Some 10
  else if e =? 114 then Some 13 else if e =? 116 then Some 9
  else None.

Definition cons_str (c : N) (r : option (jsstr * jsstr)) : option (jsstr * jsstr) :=
  match r with Some (t, rest) => Some (c :: t, rest) | None => None end.

(** The body of a string literal after its opening quote: the value and
    what follows the closing quote. *)
Fixpoint parse_str_body (s : jsstr) : option (jsstr * jsstr) :=
  match s with
  | [] => None
  | c :: rest =>
      if c =? 34 then Some ([], rest)
      else if c =? 92 then
        match rest with
        | [] => None
        | e :: rest' =>
            if e =? 117 then
              match rest' with
              | a :: b :: c' :: d :: rest'' =>
                  match hexval a, hexval b, hexval c', hexval d with
                  | Some va, Some vb, Some vc, Some vd =>
                      cons_str (((va * 16 + vb) * 16 + vc) * 16 + vd)
                               (parse_str_body rest'')
                  | _, _, _, _ => None
                  end
              | _ => None
              end
            else
              match simple_escape e with
              | Some v => cons_str v (parse_str_body rest')
              | None => None
              end
        end
      else if c <? 32 then None
      else cons_str c (parse_str_body rest)
  end.

Definition is_ws (c : N) : bool := (c =? 32) || (c =? 9) || (c =? 10) || (c =? 13).

Fixpoint skip_ws (s : jsstr) : jsstr :=
  match s with c :: rest => if is_ws c then skip_ws rest else s | [] => [] end.

Definition expect (c : N) (s : jsstr) : option jsstr :=
  match s with d :: r => if d =? c then Some r else None | [] => None end.

Definition obind {A B} (o : option A) (f : A -> option B) : option B :=
  match o with Some a => f a | None => None end.

(** Members [k: v, ...] up to the closing brace. *)
Fixpoint parse_members (fuel : nat) (s : jsstr)
  : option (list (jsstr * jsstr) * jsstr) :=
  match fuel with
  | O => None
  | S fuel' =>
      obind (expect 34 (skip_ws s)) (fun r1 =>
      obind (parse_str_body r1) (fun '(k, r2) =>
      obind (expect 58 (skip_ws r2)) (fun r3 =>
      obind (expect 34 (skip_ws r3)) (fun r4 =>
      obind (parse_str_body r4) (fun '(v, r5) =>
      let r6 := skip_ws r5 in
      match expect 44 r6 with
      | Some r7 =>
          obind (parse_members fuel' r7) (fun '(ms, r8) => Some ((k, v) :: ms, r8))
      | None => obind (expect 125 r6) (fun r7 => Some ([(k, v)], r7))
      end)))))
  end.

Definition json_parse_object (s : jsstr) : option (list (jsstr * jsstr)) :=
  obind (expect 123 (skip_ws s)) (fun r1 =>
  let r2 := skip_ws r1 in
  match expect 125 r2 with
  | Some r3 => match skip_ws r3 with [] => Some [] | _ => None end
  | None =>
      obind (parse_members (List.length s) r2) (fun '(ms, r3) =>
      match skip_ws r3 with [] => Some ms | _ => None end)
  end).

(** Property read on the parsed object: the last member with that key. *)
Definition json_prop (o : list (jsstr * jsstr)) (k : jsstr) : option jsstr :=
  option_map snd (find (fun kv => jsstr_eqb (fst kv) k) (rev o)).

(** ** The file system reached through [node:fs]

    A node is a directory or a regular file with its text (written and
    read as UTF-8, which round-trips the well-formed strings
    [JSON.stringify] emits) and its permission bits. *)

Inductive Node := NDir | NFile (content : jsstr) (mode : N).

Record FS := mkFS { fs_node : string -> option Node; fs_umask : N }.

Definition fs_set (fs : FS) (p : string) (n : Node) : FS :=
  {| fs_node := fun q => if String.eqb q p then Some n else fs_node fs q;
     fs_umask := fs_umask fs |}.

Definition existsSync (fs : FS) (p : string) : bool :=
  match fs_node fs p with Some _ => true | None => false end.

(** [os.homedir()]. *)
Variable homedir : string.

Definition CONFIG_PARENT : string := homedir ++ "/.config".
Definition CONFIG_DIR : string := CONFIG_PARENT ++ "/anylist-cli".
Definition CONFIG_FILE : string := CONFIG_DIR ++ "/config.json".

Definition getConfigPath : string := CONFIG_FILE.

(** [mkdirSync(p)] for one component of a recursive creation. *)
Definition mkdir_component (fs : FS) (p : string) : option FS :=
  match fs_node fs p with
  | None => Some (fs_set fs p NDir)
  | Some NDir => Some fs
  | Some (NFile _ _) => None
  end.

(** [mkdirSync(CONFIG_DIR, { recursive: true })]; [None] when it throws. *)
Definition mkdirSync_recursive (fs : FS) : option FS :=
  obind (mkdir_component fs homedir) (fun fs1 =>
  obind (mkdir_component fs1 CONFIG_PARENT) (fun fs2 =>
  mkdir_component fs2 CONFIG_DIR)).

(** [writeFileSync(p, data, { mode })] with flag ["w"]: an existing file is
    truncated and rewritten and keeps its permission bits; [mode] (less the
    umask) applies only when the file is created.  [None] when it throws. *)
Definition writeFileSync (fs : FS) (parent p : string) (data : jsstr) (mode : N)
  : option FS :=
  match fs_node fs parent with
  | Some NDir =>
      match fs_node fs p with
      | Some NDir => None
      | Some (NFile _ m) => Some (fs_set fs p (NFile data m))
      | None => Some (fs_set fs p (NFile data (N.ldiff mode (fs_umask fs))))
      end
  | _ => None
  end.

(** [saveConfig] (config.ts, lines 59-66); [None] when it throws.
    The mode is [0o600] = 384. *)
Definition saveConfig (config : AnyListConfig) (fs : FS) : option FS :=
  obind (if existsSync fs CONFIG_DIR then Some fs else mkdirSync_recursive fs)
    (fun fs1 => writeFileSync fs1 CONFIG_DIR CONFIG_FILE (stringify_config config) 384).

(** [loadConfig] (config.ts, lines 31-41): the parsed object, or [null]. *)
Definition loadConfig (fs : FS) : option (list (jsstr * jsstr)) :=
  if negb (existsSync fs CONFIG_FILE) then None
  else
    match fs_node fs CONFIG_FILE with
    | Some (NFile data _) => json_parse_object data
    | _ => None
    end.

(** ** The process: environment, remote service and effects

    [w_net] decides the remote calls: the n-th remote call rejects when
    the n-th entry is [true] (once the list is used up, calls succeed).
    [w_trace] records the observable effects, most recent first. *)

Inductive Event :=
| EvFsExists (p : string)
| EvFsRead (p : string)
| EvLogin
| EvGetLists
| EvSave (item : nat)
| EvListAdd (list item : nat)
| EvListRemove (list item : nat)
| EvTeardown.

Record World := mkWorld {
  w_env_email : option jsstr;      (* process.env.ANYLIST_EMAIL *)
  w_env_password : option jsstr;   (* process.env.ANYLIST_PASSWORD *)
  w_fs : FS;
  w_net : list bool;
  w_lists : list AnyListList;      (* the account's lists, as the client holds them *)
  w_client : bool;                 (* clientInstance !== null *)
  w_next : nat;                    (* next fresh object reference *)
  w_trace : list Event
}.

Definition set_net (n : list bool) (w : World) : World :=
  mkWorld (w_env_email w) (w_env_password w) (w_fs w) n (w_lists w)
          (w_client w) (w_next w) (w_trace w).
Definition set_lists (ls : list AnyListList) (w : World) : World :=
  mkWorld (w_env_email w) (w_env_password w) (w_fs w) (w_net w) ls
          (w_client w) (w_next w) (w_trace w).
Definition set_client (b : bool) (w : World) : World :=
  mkWorld (w_env_email w) (w_env_password w) (w_fs w) (w_net w) (w_lists w)
          b (w_next w) (w_trace w).
Definition set_next (n : nat) (w : World) : World :=
  mkWorld (w_env_email w) (w_env_password w) (w_fs w) (w_net w) (w_lists w)
          (w_client w) n (w_trace w).
Definition push_event (e : Event) (w : World) : World :=
  mkWorld (w_env_email w) (w_env_password w) (w_fs w) (w_net w) (w_lists w)
          (w_client w) (w_next w) (e :: w_trace w).

(** Outcome of a step: a value, [process.exit(code)], or a thrown error /
    rejected promise. *)
Inductive Res (A : Type) := Ret (a : A) | Exit (code : Z) | Throw.
Arguments Ret {A} a.
Arguments Exit {A} code.
Arguments Throw {A}.

Definition M (A : Type) := World -> Res A * World.

Definition ret {A} (a : A) : M A := fun w => (Ret a, w).

Definition bind {A B} (m : M A) (k : A -> M B) : M B := fun w =>
  match m w with
  | (Ret a, w') => k a w'
  | (Exit n, w') => (Exit n, w')
  | (Throw, w') => (Throw, w')
  end.

Notation "x <- m ;; k" := (bind m (fun x => k)) (at level 61, m at next level, right associativity).
Notation "m ;; k" := (bind m (fun _ => k)) (at level 61, right associativity).

(** [process.exit(code)]: the process ends there, no [catch] runs. *)
Definition exit {A} (code : Z) : M A := fun w => (Exit code, w).

(** [try { m } catch { h }]. *)
Definition try_catch {A} (m : M A) (h : M A) : M A := fun w =>
  match m w with
  | (Throw, w') => h w'
  | r => r
  end.

Definition gets {A} (f : World -> A) : M A := fun w => (Ret (f w), w).
Definition modify (f : World -> World) : M unit := fun w => (Ret tt, f w).

(** A call to the remote service; on success its effect is recorded. *)
Definition remote (e : Event) : M unit := fun w =>
  match w_net w with
  | true :: rest => (Throw, set_net rest w)
  | false :: rest => (Ret tt, push_event e (set_net rest w))
  | [] => (Ret tt, push_event e w)
  end.

(** ** The client wrapper (types.ts, lines 110-374) *)

(** [getClient]: [new AnyList(...)], [await client.login()], then
    [clientInstance = client]. *)
Definition getClient (email password : jsstr) : M unit :=
  remote EvLogin;; modify (set_client true).

(** [teardown] (lines 128-133). *)
Definition teardown : M unit := fun w =>
  if w_client w then (Ret tt, set_client false (push_event EvTeardown w))
  else (Ret tt, w).

(** [client.getLists()]: fetches the account's lists. *)
Definition client_getLists : M (list AnyListList) :=
  remote EvGetLists;; gets w_lists.

(** [getLists] (lines 138-146); the per-list counts only feed the output
    and are not modelled. *)
Definition getLists : M (list AnyListList) := client_getLists.

(** [getListByName] (lines 151-166). *)
Definition getListByName (name : jsstr) : M (option AnyListList) :=
  client_getLists;;
  exactMatch <- gets (fun w => client_getListByName (w_lists w) name);;
  match exactMatch with
  | Some l => ret (Some l)
  | None =>
      lists <- client_getLists;;
      let lowerName := toLowerCase name in
      ret (find (fun l => jsstr_eqb (toLowerCase (l_name l)) lowerName) lists)
  end.

(** Reading [list] through its reference: the current state of that list
    object. *)
Definition list_state (w : World) (list : AnyListList) : AnyListList :=
  match find (fun l => Nat.eqb (l_ref l) (l_ref list)) (w_lists w) with
  | Some l => l
  | None => list
  end.

Definition read_list (list : AnyListList) : M AnyListList :=
  gets (fun w => list_state w list).

Definition map_list (lr : nat) (f : list Item -> list Item) (w : World) : World :=
  set_lists (map (fun l => if Nat.eqb (l_ref l) lr
                           then mkList (l_ref l) (l_name l) (l_identifier l) (f (l_items l))
                           else l) (w_lists w)) w.

(** Field assignments on an item object of list [lr]: every alias of the
    object sees the new fields. *)
Definition write_item (lr : nat) (it : Item) : M unit :=
  modify (map_list lr (map (fun i => if Nat.eqb (i_ref i) (i_ref it) then it else i))).

(** [item.save()]. *)
Definition item_save (it : Item) : M unit := remote (EvSave (i_ref it)).

(** The anylist library's [List.removeItem(item)]: posts the removal, then
    drops the item object from [items]. *)
Definition list_removeItem (list : AnyListList) (item : Item) : M unit :=
  remote (EvListRemove (l_ref list) (i_ref item));;
  modify (map_list (l_ref list) (filter (fun i => negb (Nat.eqb (i_ref i) (i_ref item))))).

(** The anylist library's [List.addItem(item)]: posts the item, appends it
    to [items] and returns it. *)
Definition list_addItem (list : AnyListList) (item : Item) : M Item :=
  remote (EvListAdd (l_ref list) (i_ref item));;
  modify (map_list (l_ref list) (fun items => items ++ [item]));;
  ret item.

(** [client.createItem(options)]: a new, unchecked item object with a
    fresh reference and a fresh identifier; no remote call. *)
Definition createItem (name : jsstr) (quantity : option jsstr) (details : option jsstr)
    (categoryMatchId : JSValue) : M Item := fun w =>
  let r := w_next w in
  (Ret (mkItem r name quantity false [N.of_nat r] categoryMatchId details),
   set_next (S r) w).

Definition set_checked (b : bool) (i : Item) : Item :=
  mkItem (i_ref i) (i_name i) (i_quantity i) b (i_identifier i) (i_categoryMatchId i) (i_details i).
Definition set_quantity (q : option jsstr) (i : Item) : Item :=
  mkItem (i_ref i) (i_name i) q (i_checked i) (i_identifier i) (i_categoryMatchId i) (i_details i).
Definition set_category (c : JSValue) (i : Item) : Item :=
  mkItem (i_ref i) (i_name i) (i_quantity i) (i_checked i) (i_identifier i) c (i_details i).
Definition set_details (d : option jsstr) (i : Item) : Item :=
  mkItem (i_ref i) (i_name i) (i_quantity i) (i_checked i) (i_identifier i) (i_categoryMatchId i) d.

(** [addItem] (lines 208-278).  [categoryMatchId] is the value the caller
    passes ([undefined] is [JUndefined]); [details] is [None] when
    [undefined]. *)
Definition addItem (list : AnyListList) (name : jsstr) (quantity : option jsstr)
    (categoryMatchId : JSValue) (details : option jsstr) : M ItemInfo :=
  cur <- read_list list;;
  match findItemByName cur name with
  | Some existing =>
      let '(e1, needsSave1) :=
        if i_checked existing then (set_checked false existing, true)
        else (existing, false) in
      let '(e2, needsSave2) :=
        if opt_truthy quantity then (set_quantity quantity e1, true)
        else (e1, needsSave1) in
      let '(e3, needsSave3) :=
        if val_truthy categoryMatchId then (set_category categoryMatchId e2, true)
        else (e2, needsSave2) in
      let '(e4, needsSave) :=
        match details with
        | Some d => (set_details (Some d) e3, true)
        | None => (e3, needsSave3)
        end in
      write_item (l_ref list) e4;;
      (if needsSave then item_save e4 else ret tt);;
      ret (item_info e4)
  | None =>
      let optQuantity := if opt_truthy quantity then quantity else None in
      let optCategory := if val_truthy categoryMatchId then categoryMatchId else JUndefined in
      item <- createItem name optQuantity details optCategory;;
      added <- list_addItem list item;;
      ret (item_info added)
  end.

(** [checkItem] (lines 283-300). *)
Definition checkItem (list : AnyListList) (name : jsstr) : M (option ItemInfo) :=
  cur <- read_list list;;
  match findItemByName cur name with
  | None => ret None
  | Some item =>
      let item' := set_checked true item in
      write_item (l_ref list) item';;
      item_save item';;
      ret (Some (item_info item'))
  end.

(** [uncheckItem] (lines 305-322). *)
Definition uncheckItem (list : AnyListList) (name : jsstr) : M (option ItemInfo) :=
  cur <- read_list list;;
  match findItemByName cur name with
  | None => ret None
  | Some item =>
      let item' := set_checked false item in
      write_item (l_ref list) item';;
      item_save item';;
      ret (Some (item_info item'))
  end.

(** [removeItem] (lines 350-359). *)
Definition removeItem (list : AnyListList) (name : jsstr) : M bool :=
  cur <- read_list list;;
  match findItemByName cur name with
  | None => ret false
  | Some item => list_removeItem list item;; ret true
  end.

(** The [for (const item of checkedItems)] loop of [clearChecked]. *)
Fixpoint remove_each (list : AnyListList) (items : Datatypes.list Item) (count : nat) : M nat :=
  match items with
  | [] => ret count
  | item :: rest => list_removeItem list item;; remove_each list rest (S count)
  end.

(** [clearChecked] (lines 364-374). *)
Definition clearChecked (list : AnyListList) : M nat :=
  cur <- read_list list;;
  let checkedItems := filter i_checked (l_items cur) in
  remove_each list checkedItems 0.

(** ** Credentials (config.ts) *)

(** [loadConfigFromEnv] (lines 46-54). *)
Definition loadConfigFromEnv : M (option AnyListConfig) :=
  gets (fun w =>
    match w_env_email w, w_env_password w with
    | Some e, Some p => if str_truthy e && str_truthy p then Some (mkConfig e p) else None
    | _, _ => None
    end).

(** [loadConfig()] as a step of the process: [existsSync], then
    [readFileSync] when the file exists. *)
Definition loadConfigM : M (option (list (jsstr * jsstr))) := fun w =>
  let fs := w_fs w in
  let w1 := push_event (EvFsExists CONFIG_FILE) w in
  let w2 := if existsSync fs CONFIG_FILE then push_event (EvFsRead CONFIG_FILE) w1 else w1 in
  (Ret (loadConfig fs), w2).

(** [process.exit] codes (types.ts, lines 89-94). *)
Definition Success : Z := 0.
Definition Failure : Z := 1.
Definition InvalidUsage : Z := 2.
Definition AuthFailure : Z := 3.

(** [requireConfig] (lines 86-104). *)
Definition requireConfig : M AnyListConfig :=
  envConfig <- loadConfigFromEnv;;
  match envConfig with
  | Some c => ret c
  | None =>
      fileConfig <- loadConfigM;;
      match fileConfig with
      | Some o =>
          match json_prop o (js "email"), json_prop o (js "password") with
          | Some e, Some p =>
              if str_truthy e && str_truthy p then ret (mkConfig e p) else exit AuthFailure
          | _, _ => exit AuthFailure
          end
      | None => exit AuthFailure
      end
  end.

(** ** The commands (types.ts, lines 404-908) *)

(** [getAuthenticatedClient] (lines 487-498). *)
Definition getAuthenticatedClient : M unit :=
  config <- requireConfig;;
  try_catch (getClient (email config) (password config)) (exit AuthFailure).

(** [ANYLIST_CATEGORIES] (lines 60-82). *)
Definition ANYLIST_CATEGORIES : list (string * string) :=
  [("produce", "produce"); ("meat", "meat-seafood"); ("seafood", "meat-seafood");
   ("dairy", "dairy"); ("bakery", "bakery-bread"); ("bread", "bakery-bread");
   ("frozen", "frozen"); ("canned", "canned-goods"); ("condiments", "condiments");
   ("beverages", "beverages"); ("snacks", "snacks"); ("pasta", "pasta-rice");
   ("rice", "pasta-rice"); ("cereal", "breakfast"); ("breakfast", "breakfast");
   ("baking", "baking"); ("spices", "spices-seasonings");
   ("seasonings", "spices-seasonings"); ("household", "household");
   ("personal care", "personal-care"); ("other", "other")]%string.

(** The properties every object literal inherits from [Object.prototype]. *)
Definition OBJECT_PROTOTYPE_MEMBERS : list string :=
  ["constructor"; "__defineGetter__"; "__defineSetter__"; "hasOwnProperty";
   "__lookupGetter__"; "__lookupSetter__"; "isPrototypeOf";
   "propertyIsEnumerable"; "toString"; "valueOf"; "__proto__";
   "toLocaleString"]%string.

(** [ANYLIST_CATEGORIES[k]]: own property, else inherited member, else
    [undefined]. *)
Definition category_lookup (k : jsstr) : JSValue :=
  match find (fun kv => jsstr_eqb (js (fst kv)) k) ANYLIST_CATEGORIES with
  | Some kv => JString (js (snd kv))
  | None =>
      if existsb (fun m => jsstr_eqb (js m) k) OBJECT_PROTOTYPE_MEMBERS then
        (if jsstr_eqb k (js "__proto__") then JObject else JFunction k)
      else JUndefined
  end.

(** The [lists] action (lines 584-610). *)
Definition cmd_lists : M unit :=
  try_catch
    (getAuthenticatedClient;;
     _ <- getLists;;
     teardown;;
     ret tt)
    (exit Failure).

(** [getItems] (lines 171-184). *)
Definition getItems (list : AnyListList) (uncheckedOnly : bool) : Datatypes.list ItemInfo :=
  let items := if uncheckedOnly then filter (fun i => negb (i_checked i)) (l_items list)
               else l_items list in
  map item_info items.

(** The [items] action (lines 622-672). *)
Definition cmd_items (listName : jsstr) (unchecked : bool) : M unit :=
  try_catch
    (getAuthenticatedClient;;
     list <- getListByName listName;;
     match list with
     | None => teardown;; exit Failure
     | Some list =>
         cur <- read_list list;;
         let items := getItems cur unchecked in
         teardown;;
         ret tt
     end)
    (exit Failure).

(** The category mapping of the [add] action (lines 701-714). *)
Definition add_category (category : option jsstr) : M JSValue :=
  match category with
  | Some c =>
      if str_truthy c then
        let categoryId := category_lookup (toLowerCase c) in
        if negb (val_truthy categoryId) then teardown;; exit InvalidUsage
        else ret categoryId
      else ret JUndefined
  | None => ret JUndefined
  end.

(** The [add] action (lines 685-736). *)
Definition cmd_add (listName itemName : jsstr) (quantity category : option jsstr) : M unit :=
  try_catch
    (getAuthenticatedClient;;
     list <- getListByName listName;;
     match list with
     | None => teardown;; exit Failure
     | Some list =>
         categoryId <- add_category category;;
         item <- addItem list itemName quantity categoryId None;;
         teardown;;
         ret tt
     end)
    (exit Failure).

(** The [check] action (lines 744-778). *)
Definition cmd_check (listName itemName : jsstr) : M unit :=
  try_catch
    (getAuthenticatedClient;;
     list <- getListByName listName;;
     match list with
     | None => teardown;; exit Failure
     | Some list =>
         item <- checkItem list itemName;;
         teardown;;
         match item with None => exit Failure | Some _ => ret tt end
     end)
    (exit Failure).

(** The [uncheck] action (lines 786-820). *)
Definition cmd_uncheck (listName itemName : jsstr) : M unit :=
  try_catch
    (getAuthenticatedClient;;
     list <- getListByName listName;;
     match list with
     | None => teardown;; exit Failure
     | Some list =>
         item <- uncheckItem list itemName;;
         teardown;;
         match item with None => exit Failure | Some _ => ret tt end
     end)
    (exit Failure).

(** The [remove] action (lines 827-851). *)
Definition cmd_remove (listName itemName : jsstr) : M unit :=
  try_catch
    (getAuthenticatedClient;;
     list <- getListByName listName;;
     match list with
     | None => teardown;; exit Failure
     | Some list =>
         removed <- removeItem list itemName;;
         teardown;;
         if negb removed then exit Failure else ret tt
     end)
    (exit Failure).

(** The [clear] action (lines 857-882). *)
Definition cmd_clear (listName : jsstr) : M unit :=
  try_catch
    (getAuthenticatedClient;;
     list <- getListByName listName;;
     match list with
     | None => teardown;; exit Failure
     | Some list =>
         count <- clearChecked list;;
         teardown;;
         ret tt
     end)
    (exit Failure).

(** The authenticated commands; [--json] only changes what is printed. *)
Inductive Cmd :=
| CLists
| CItems (list : jsstr) (unchecked : bool)
| CAdd (list item : jsstr) (quantity category : option jsstr)
| CCheck (list item : jsstr)
| CUncheck (list item : jsstr)
| CRemove (list item : jsstr)
| CClear (list : jsstr).

Definition dispatch (c : Cmd) : M unit :=
  match c with
  | CLists => cmd_lists
  | CItems l u => cmd_items l u
  | CAdd l i q cat => cmd_add l i q cat
  | CCheck l i => cmd_check l i
  | CUncheck l i => cmd_uncheck l i
  | CRemove l i => cmd_remove l i
  | CClear l => cmd_clear l
  end.

End JSRuntime.

Arguments Ret {A} a.
Arguments Exit {A} code.
Arguments Throw {A}.
Notation "x <- m ;; k" := (bind m (fun x => k)) (at level 61, m at next level, right associativity).
Notation "m ;; k" := (bind m (fun _ => k)) (at level 61, right associativity).

(** The [exitOverride] handler (lines 416-427): Commander's error code and
    its default exit code give the process exit code. *)
Definition exitOverride (code : string) (exitCode : Z) : Z :=
  if (String.eqb code "commander.missingArgument" ||
      String.eqb code "commander.unknownOption" ||
      String.eqb code "commander.invalidArgument" ||
      String.eqb code "commander.missingMandatoryOptionValue")%bool
  then InvalidUsage
  else exitCode.

(** What Commander's [program.parse()] does with the command line: raise
    one of its errors (code and default exit code: 1 for errors, 0 for
    help and version) or run an action. *)
Inductive ParseOutcome :=
| ParseError (code : string) (exitCode : Z)
| Dispatch (c : Cmd).

(** Exit code of a finished action: a normal end exits 0. *)
Definition exit_status (r : Res unit) : Z :=
  match r with Ret _ => Success | Exit n => n | Throw => Failure end.

Definition run_program (toLowerCase : jsstr -> jsstr) (homedir : string)
    (p : ParseOutcome) (w : World) : Z :=
  match p with
  | ParseError code exitCode => exitOverride code exitCode
  | Dispatch c => exit_status (fst (dispatch toLowerCase homedir c w))
  end.

(** ** The rest of the client wrapper and of the command actions *)

Section Commands.

Variable toLowerCase : jsstr -> jsstr.
Variable homedir : string.

(** [ListInfo] as [getLists] (types.ts, lines 138-146) builds it. *)
Record ListInfo := mkListInfo {
  li_name : jsstr;
  li_identifier : jsstr;
  li_itemCount : nat;
  li_checkedCount : nat
}.

Definition list_info (list : AnyListList) : ListInfo :=
  {| li_name := l_name list;
     li_identifier := l_identifier list;
     li_itemCount := List.length (l_items list);
     li_checkedCount := List.length (filter i_checked (l_items list)) |}.

(** [getLists] with the [ListInfo] objects it returns. *)
Definition getLists_info : M (list ListInfo) :=
  lists <- getLists;;
  ret (map list_info lists).

(** [updateItemDetails] (types.ts, lines 327-345). *)
Definition updateItemDetails (list : AnyListList) (name details : jsstr) : M (option ItemInfo) :=
  cur <- read_list list;;
  match findItemByName toLowerCase cur name with
  | None => ret None
  | Some item =>
      let item' := set_details (Some details) item in
      write_item (l_ref list) item';;
      item_save item';;
      ret (Some (item_info item'))
  end.

(** [unlinkSync(p)] on a path [existsSync] reported: a regular file is
    removed; a directory makes it throw ([None]). *)
Definition fs_remove (fs : FS) (p : string) : FS :=
  {| fs_node := fun q => if String.eqb q p then None else fs_node fs q;
     fs_umask := fs_umask fs |}.

Definition unlinkSync (fs : FS) (p : string) : option FS :=
  match fs_node fs p with
  | Some (NFile _ _) => Some (fs_remove fs p)
  | _ => None
  end.

(** [join(homedir(), ".anylist_credentials")]. *)
Definition ANYLIST_CREDS : string := homedir ++ "/.anylist_credentials".

(** [clearConfig] (config.ts, lines 71-81); [None] when it throws. *)
Definition clearConfig (fs : FS) : option FS :=
  obind (if existsSync fs (CONFIG_FILE homedir) then unlinkSync fs (CONFIG_FILE homedir)
         else Some fs) (fun fs1 =>
  if existsSync fs1 ANYLIST_CREDS then unlinkSync fs1 ANYLIST_CREDS else Some fs1).

Definition set_fs (fs : FS) (w : World) : World :=
  mkWorld (w_env_email w) (w_env_password w) fs (w_net w) (w_lists w)
          (w_client w) (w_next w) (w_trace w).

(** Running a file-system operation of [node:fs] in the process: a failure
    throws.  (A failed [saveConfig] or [clearConfig] leaves the files as
    they were: in a directory tree the component that makes
    [mkdirSync] fail lies below the ones already present.) *)
Definition fs_op (op : FS -> option FS) : M unit := fun w =>
  match op (w_fs w) with
  | Some fs' => (Ret tt, set_fs fs' w)
  | None => (Throw, w)
  end.

(** The [logout] action (types.ts, lines 546-551). *)
Definition cmd_logout : M unit := fs_op clearConfig.

(** [JSON.stringify({ authenticated: false })]. *)
Definition whoami_not_authenticated : jsstr :=
  [123; 34] ++ js "authenticated" ++ [34] ++ js ":false}".

(** What the [whoami --json] action (types.ts, lines 554-575) prints for the
    config [loadConfig] returns: [JSON.stringify({ authenticated: true,
    email: config.email }, null, 2)], which leaves an [undefined] email
    out. *)
Definition whoami_json (fs : FS) : jsstr :=
  match loadConfig homedir fs with
  | None => whoami_not_authenticated
  | Some o =>
      match json_prop o (js "email") with
      | Some e =>
          [123; 10; 32; 32; 34] ++ js "authenticated" ++ [34; 58; 32] ++ js "true" ++
          [44; 10; 32; 32; 34] ++ js "email" ++ [34; 58; 32; 34] ++ json_escape e ++
          [34; 10; 125]
      | None =>
          [123; 10; 32; 32; 34] ++ js "authenticated" ++ [34; 58; 32] ++ js "true" ++
          [10; 125]
      end
  end.

(** The [auth] action (types.ts, lines 505-543); [email] and [password] are
    the answers the two prompts resolve with. *)
Definition cmd_auth (isTTY : bool) (email password : jsstr) : M unit :=
  if negb isTTY then exit InvalidUsage
  else
    try_catch
      (if negb (str_truthy email) || negb (str_truthy password) then exit InvalidUsage
       else
         getClient email password;;
         lists <- getLists_info;;
         teardown;;
         fs_op (saveConfig homedir (mkConfig email password)))
      (exit AuthFailure).

End Commands.

(** The [onData] handler of [prompt(question, true)] (types.ts, lines
    450-474) fed with the chunks [stdin] delivers: [Some (Ret p)] when the
    prompt resolves with [p], [Some (Exit 1)] on Ctrl-C, [None] while it is
    still waiting. *)
Fixpoint prompt_hidden_loop (password : jsstr) (chunks : list jsstr) : option (Res jsstr) :=
  match chunks with
  | [] => None
  | char :: rest =>
      if jsstr_eqb char [10] || jsstr_eqb char [13] || jsstr_eqb char [4] then Some (Ret password)
      else if jsstr_eqb char [3] then Some (Exit Failure)
      else if jsstr_eqb char [127] || jsstr_eqb char [8] then
        prompt_hidden_loop
          (if (0 <? List.length password)%nat then removelast password else password) rest
      else prompt_hidden_loop (password ++ char) rest
  end.

Definition prompt_hidden (chunks : list jsstr) : option (Res jsstr) :=
  prompt_hidden_loop [] chunks.

(** ** Concrete inputs for the runs below *)

Definition kelvin_item : Item := mkItem 10 [8490] None false (js "i10") JUndefined None.
Definition k_item : Item := mkItem 11 (js "k") None false (js "i11") JUndefined None.
Definition kelvin_list : AnyListList := mkList 1 (js "Groceries") (js "l1") [kelvin_item; k_item].

Definition milk : Item := mkItem 20 (js "Milk") (Some (js "2")) false (js "i20") JUndefined None.
Definition eggs : Item := mkItem 21 (js "Eggs") None true (js "i21") JUndefined None.
Definition bread : Item := mkItem 22 (js "Bread") None true (js "i22") JUndefined None.
Definition shop_list : AnyListList := mkList 2 (js "Shopping") (js "l2") [milk; eggs; bread].

(** A home directory holding nothing but itself; umask [0o022]. *)
Definition fs_home : FS :=
  mkFS (fun p => if String.eqb p "/home/u" then Some NDir else None) 18.

(** A process with credentials in the environment, a working connection
    and the two lists above. *)
Definition demo_world : World :=
  mkWorld (Some (js "me@example.com")) (Some (js "secret")) fs_home []
          [kelvin_list; shop_list] false 100 [].

(** A config file left from earlier with mode [0o644] = 420. *)
Definition fs_stale : FS :=
  mkFS (fun p =>
          if String.eqb p "/home/u" then Some NDir
          else if String.eqb p "/home/u/.config" then Some NDir
          else if String.eqb p "/home/u/.config/anylist-cli" then Some NDir
          else if String.eqb p "/home/u/.config/anylist-cli/config.json"
          then Some (NFile (js "{}") 420)
          else None) 18.

Definition flour_demo (category : option jsstr) : Res unit * World :=
  cmd_add toLowerCase_sample "/home/u" (js "Shopping") (js "Flour") None category demo_world.
Definition missing_list_demo : Res unit * World :=
  cmd_add toLowerCase_sample "/home/u" (js "Hardware") (js "Nails") None (Some (js "tools")) demo_world.

Definition demo_after_auth : World := snd (getAuthenticatedClient "/home/u" demo_world).
Definition demo_after_lookup : World :=
  snd (getListByName toLowerCase_sample (js "Shopping") demo_after_auth).

Definition check_save_rejects : Res unit * World :=
  cmd_check toLowerCase_sample "/home/u" (js "Shopping") (js "Milk")
            (set_net [false; false; true] demo_world).

(** The item [addItem] leaves behind when it finds [it]. *)
Definition updated_existing (it : Item) (quantity : option jsstr) (categoryMatchId : JSValue)
    (details : option jsstr) : Item :=
  mkItem (i_ref it) (i_name it)
         (if opt_truthy quantity then quantity else i_quantity it)
         false (i_identifier it)
         (if val_truthy categoryMatchId then categoryMatchId else i_categoryMatchId it)
         (match details with Some d => Some d | None => i_details it end).

Definition readd_milk : Res ItemInfo * World :=
  addItem toLowerCase_sample shop_list (js "Milk") (Some (js "2")) JUndefined None demo_world.

(** The filtering done by removing the items [xs] one by one. *)
Definition removed_all (xs : list Item) (i : Item) : bool :=
  negb (existsb (fun x => Nat.eqb (i_ref x) (i_ref i)) xs).

(** ** Vocabulary of the further properties *)

(** [m] ends the process only with exit codes satisfying [P]. *)
Definition exits_in {A} (P : Z -> Prop) (m : M A) : Prop :=
  forall w, match fst (m w) with Exit n => P n | _ => True end.

(** [m] leaves [clientInstance] as it found it. *)
Definition keeps_client {A} (m : M A) : Prop :=
  forall w, w_client (snd (m w)) = w_client w.

(** When [m] starts in a world satisfying [Pre] and returns normally, it
    ends in one satisfying [Post]. *)
Definition post_ret {A} (Pre Post : World -> Prop) (m : M A) : Prop :=
  forall w a w', Pre w -> m w = (Ret a, w') -> Post w'.

(** The client is torn down and the teardown is recorded. *)
Definition torn_down (w : World) : Prop := w_client w = false /\ In EvTeardown (w_trace w).

(** The write-back of [it'] over the item object [it]. *)
Definition write_back (it it' : Item) (i : Item) : Item :=
  if Nat.eqb (i_ref i) (i_ref it) then it' else i.

(** The list after writing back [it'] over [it]. *)
Definition written (l : AnyListList) (it it' : Item) : AnyListList :=
  mkList (l_ref l) (l_name l) (l_identifier l) (map (write_back it it') (l_items l)).


(** [~/.config] is a regular file, which makes [mkdirSync] throw. *)
Definition fs_config_blocked : FS :=
  mkFS (fun p =>
          if String.eqb p "/home/u/.config" then Some (NFile [] 420)
          else if String.eqb p "/home/u" then Some NDir
          else None) 18.

(** * Properties *)

(** ** General facts about the embedding *)

Lemma jsstr_eqb_eq (s t : jsstr) : jsstr_eqb s t = true <-> s = t.
Proof.
  revert t; induction s as [|a s IH]; intros [|b t]; simpl; try easy.
  rewrite andb_true_iff, N.eqb_eq, IH; split.
  - intros [-> ->]; reflexivity.
  - intros H; injection H; auto.
Qed.

Lemma jsstr_eqb_refl (s : jsstr) : jsstr_eqb s s = true.
Proof. apply jsstr_eqb_eq; reflexivity. Qed.

(** [lower_unit_sample] only sees the ASCII-folded code unit. *)
Lemma lower_unit_sample_fold (c : N) :
  lower_unit_sample (ascii_fold c) = lower_unit_sample c.
Proof.
  unfold lower_unit_sample, ascii_fold.
  destruct (65 <=? c) eqn:E1, (c <=? 90) eqn:E2; simpl;
    rewrite ?N.leb_le, ?N.leb_gt in *;
    repeat match goal with
    | |- context [if ?b then _ else _] => destruct b eqn:?
    end;
    rewrite ?andb_true_iff, ?andb_false_iff, ?N.leb_le, ?N.leb_gt, ?N.eqb_eq, ?N.eqb_neq in *;
    lia.
Qed.

(** The sample lowering sends strings equal up to ASCII case to the same
    string, as [toLowerCase] does. *)
Lemma toLowerCase_sample_ascii_ci (s t : jsstr) :
  ascii_ci_eq s t = true -> toLowerCase_sample s = toLowerCase_sample t.
Proof.
  revert t; induction s as [|a s IH]; intros [|b t]; simpl; try easy.
  rewrite andb_true_iff, N.eqb_eq; intros [Hab Hst].
  f_equal; [|now apply IH].
  rewrite <- (lower_unit_sample_fold a), <- (lower_unit_sample_fold b), Hab.
  reflexivity.
Qed.

(** The outcome of [getListByName]: the remote fetches reject, or the
    result is computed from the account's lists. *)
Lemma getListByName_outcome (toLowerCase : jsstr -> jsstr) (name : jsstr) (w : World) :
  fst (getListByName toLowerCase name w) = Throw \/
  fst (getListByName toLowerCase name w) =
    Ret (match client_getListByName (w_lists w) name with
         | Some l => Some l
         | None => find (fun l => jsstr_eqb (toLowerCase (l_name l)) (toLowerCase name))
                        (w_lists w)
         end).
Proof.
  unfold getListByName, client_getLists, bind, remote, gets, ret.
  destruct (w_net w) as [|[] net] eqn:Hn; simpl; auto;
    destruct (client_getListByName (w_lists w) name); simpl; rewrite ?Hn; auto;
    try (destruct net as [|[] net']; simpl; auto).
Qed.

(** A name lookup of the shape of [findItemByName] and [getListByName]:
    the first exact match, else the first match after lowering. *)
Lemma exact_then_lowered {A : Type} (toLowerCase : jsstr -> jsstr)
    (Hlow : forall s t, ascii_ci_eq s t = true -> toLowerCase s = toLowerCase t)
    (nm : A -> jsstr) (xs : list A) (q : jsstr) (e : A) :
  In e xs -> ascii_ci_eq (nm e) q = true ->
  exists r,
    match find (fun x => jsstr_eqb (nm x) q) xs with
    | Some x => Some x
    | None => find (fun x => jsstr_eqb (toLowerCase (nm x)) (toLowerCase q)) xs
    end = Some r /\
    In r xs /\ toLowerCase (nm r) = toLowerCase q /\
    ((exists e', In e' xs /\ nm e' = q) -> nm r = q).
Proof.
  intros He Hci.
  destruct (find (fun x => jsstr_eqb (nm x) q) xs) as [r|] eqn:Ex.
  - apply find_some in Ex as [Hr Hq]; apply jsstr_eqb_eq in Hq.
    exists r; repeat split; auto; now rewrite Hq.
  - destruct (find (fun x => jsstr_eqb (toLowerCase (nm x)) (toLowerCase q)) xs)
      as [r|] eqn:El.
    + apply find_some in El as [Hr Hq]; apply jsstr_eqb_eq in Hq.
      exists r; repeat split; auto.
      intros (e' & He' & Hn).
      pose proof (find_none _ _ Ex e' He') as F; simpl in F.
      rewrite Hn, jsstr_eqb_refl in F; discriminate.
    + pose proof (find_none _ _ El e He) as F; simpl in F.
      rewrite (Hlow _ _ Hci), jsstr_eqb_refl in F; discriminate.
Qed.

(** ** C1: case-insensitive lookup by name *)


(** C1 (counterexample): in a list holding an item named with U+212A
    KELVIN SIGN followed by an item named [k], [findItemByName] for [K]
    returns the first one, whose name is not [K] up to ASCII case, although
    the second item's name is. *)
Lemma C1_kelvin_counterexample :
  In k_item (l_items kelvin_list) /\ ascii_ci_eq (i_name k_item) (js "K") = true /\
  findItemByName toLowerCase_sample kelvin_list (js "K") = Some kelvin_item /\
  ascii_ci_eq (i_name kelvin_item) (js "K") = false.
Proof. vm_compute. repeat split; auto. Qed.

(** C1 (amended): whenever an item (a list) has a name equal to the query
    up to ASCII case, [findItemByName] ([getListByName], when its remote
    fetches succeed) returns an entry of the list whose name, lowered with
    [toLowerCase], equals the lowered query; when an entry with exactly the
    query's name exists, the entry returned has exactly that name.  The
    only property of [toLowerCase] used is that it maps strings equal up to
    ASCII case to the same string. *)
Theorem C1_lookup_case_insensitive (toLowerCase : jsstr -> jsstr)
    (Hlow : forall s t, ascii_ci_eq s t = true -> toLowerCase s = toLowerCase t) :
  (forall (list : AnyListList) (q : jsstr) (e : Item),
     In e (l_items list) -> ascii_ci_eq (i_name e) q = true ->
     exists r, findItemByName toLowerCase list q = Some r /\
       In r (l_items list) /\ toLowerCase (i_name r) = toLowerCase q /\
       ((exists e', In e' (l_items list) /\ i_name e' = q) -> i_name r = q)) /\
  (forall (w : World) (q : jsstr) (e : AnyListList),
     In e (w_lists w) -> ascii_ci_eq (l_name e) q = true ->
     match fst (getListByName toLowerCase q w) with
     | Ret (Some r) =>
         In r (w_lists w) /\ toLowerCase (l_name r) = toLowerCase q /\
         ((exists e', In e' (w_lists w) /\ l_name e' = q) -> l_name r = q)
     | Ret None => False
     | Exit _ => False
     | Throw => True
     end).
Proof.
  split.
  - intros list q e He Hci.
    exact (exact_then_lowered toLowerCase Hlow i_name (l_items list) q e He Hci).
  - intros w q e He Hci.
    destruct (getListByName_outcome toLowerCase q w) as [-> | ->]; [exact I|].
    destruct (exact_then_lowered toLowerCase Hlow l_name (w_lists w) q e He Hci)
      as (r & Hr & Hin & Hl & Hx).
    unfold client_getListByName; rewrite Hr; auto.
Qed.

(** Witness: with the sample lowering, [findItemByName] finds the item [k]
    when asked for [K], and [getListByName] finds [Groceries] when asked
    for [groceries]. *)
Lemma C1_lookup_case_insensitive_witness :
  findItemByName toLowerCase_sample (mkList 1 (js "L") (js "l1") [k_item]) (js "K") = Some k_item /\
  fst (getListByName toLowerCase_sample (js "groceries") demo_world) = Ret (Some kelvin_list).
Proof.
  pose proof (C1_lookup_case_insensitive toLowerCase_sample toLowerCase_sample_ascii_ci)
    as [H1 H2].
  split.
  - destruct (H1 (mkList 1 (js "L") (js "l1") [k_item]) (js "K") k_item
                 (or_introl eq_refl) eq_refl) as (r & Hr & Hin & _).
    rewrite Hr; destruct Hin as [<-|[]]; reflexivity.
  - pose proof (H2 demo_world (js "groceries") kelvin_list (or_introl eq_refl) eq_refl)
      as H.
    vm_compute in H |- *. reflexivity.
Defined.

(** ** C2: the category of [add] *)

Lemma category_lookup_key (k v : string) :
  In (k, v) ANYLIST_CATEGORIES -> category_lookup (js k) = JString (js v).
Proof.
  simpl; intros H;
    repeat (destruct H as [H|H]; [injection H; intros <- <-; vm_compute; reflexivity|]);
    contradiction.
Qed.

Lemma category_value_truthy (k v : string) :
  In (k, v) ANYLIST_CATEGORIES -> str_truthy (js v) = true.
Proof.
  simpl; intros H;
    repeat (destruct H as [H|H]; [injection H; intros <- <-; reflexivity|]);
    contradiction.
Qed.

Lemma category_lookup_unknown (x : jsstr) :
  (forall k, In k (map fst ANYLIST_CATEGORIES) -> x <> js k) ->
  (forall m, In m OBJECT_PROTOTYPE_MEMBERS -> x <> js m) ->
  category_lookup x = JUndefined.
Proof.
  intros Hk Hm; unfold category_lookup.
  destruct (find (fun kv => jsstr_eqb (js (fst kv)) x) ANYLIST_CATEGORIES) as [kv|] eqn:E.
  - apply find_some in E as [Hin Heq]; apply jsstr_eqb_eq in Heq.
    exfalso; apply (Hk (fst kv)); [apply in_map; exact Hin | symmetry; exact Heq].
  - destruct (existsb (fun m => jsstr_eqb (js m) x) OBJECT_PROTOTYPE_MEMBERS) eqn:E2;
      [|reflexivity].
    apply existsb_exists in E2 as (m & Hin & Heq); apply jsstr_eqb_eq in Heq.
    exfalso; exact (Hm m Hin (eq_sym Heq)).
Qed.

(** C2 (counterexample): [tools] is not a category, yet [add] to a list
    that does not exist exits 1, not 2; an empty [--category ""] skips
    the mapping and the item is added; and [constructor], inherited by
    the object literal from [Object.prototype], passes the check and the
    item is added (exit 0). *)
Lemma C2_category_counterexample :
  fst missing_list_demo = Exit Failure /\
  fst (flour_demo (Some [])) = Ret tt /\
  In (EvListAdd 2 100) (w_trace (snd (flour_demo (Some [])))) /\
  fst (flour_demo (Some (js "constructor"))) = Ret tt /\
  In (EvListAdd 2 100) (w_trace (snd (flour_demo (Some (js "constructor"))))).
Proof. vm_compute; repeat split; auto 6. Qed.

(** C2 (amended): in an [add] that authenticates and finds its list, a
    non-empty [--category] value [c] whose lowering is a key [k] of
    [ANYLIST_CATEGORIES] (in any casing of [c]) hands the identifier of [k]
    to [addItem]; one whose lowering is neither a key nor the name of a
    property inherited from [Object.prototype] ends the process with exit
    code 2 after tearing down the connection, without any further effect
    (no item added or saved). *)
Theorem C2_add_category (toLowerCase : jsstr -> jsstr) (homedir : string)
    (w w1 w2 : World) (listName itemName : jsstr) (quantity : option jsstr)
    (c : jsstr) (lst : AnyListList)
    (Hauth : getAuthenticatedClient homedir w = (Ret tt, w1))
    (Hlist : getListByName toLowerCase listName w1 = (Ret (Some lst), w2))
    (Hc : str_truthy c = true) :
  (forall k v, In (k, v) ANYLIST_CATEGORIES -> toLowerCase c = js k ->
     cmd_add toLowerCase homedir listName itemName quantity (Some c) w =
     try_catch (_ <- addItem toLowerCase lst itemName quantity (JString (js v)) None;;
                teardown;; ret tt) (exit Failure) w2) /\
  ((forall k, In k (map fst ANYLIST_CATEGORIES) -> toLowerCase c <> js k) ->
   (forall m, In m OBJECT_PROTOTYPE_MEMBERS -> toLowerCase c <> js m) ->
   cmd_add toLowerCase homedir listName itemName quantity (Some c) w =
   (Exit InvalidUsage, snd (teardown w2))).
Proof.
  split.
  - intros k v Hin Hk.
    cbv [cmd_add try_catch bind]; rewrite Hauth, Hlist.
    cbv [add_category]; rewrite Hc, Hk, (category_lookup_key k v Hin); simpl.
    rewrite (category_value_truthy k v Hin); simpl.
    reflexivity.
  - intros Hk Hm.
    cbv [cmd_add try_catch bind]; rewrite Hauth, Hlist.
    cbv [add_category]; rewrite Hc, (category_lookup_unknown _ Hk Hm); simpl.
    cbv [bind exit teardown]; destruct (w_client w2); reflexivity.
Qed.

(** Witness: [--category Produce] and [--category xyz] on [Shopping]. *)
Lemma C2_add_category_witness :
  cmd_add toLowerCase_sample "/home/u" (js "Shopping") (js "Flour") None (Some (js "Produce")) demo_world =
  try_catch (_ <- addItem toLowerCase_sample shop_list (js "Flour") None (JString (js "produce")) None;;
             teardown;; ret tt) (exit Failure) demo_after_lookup /\
  cmd_add toLowerCase_sample "/home/u" (js "Shopping") (js "Flour") None (Some (js "xyz")) demo_world =
  (Exit InvalidUsage, snd (teardown demo_after_lookup)).
Proof.
  assert (Ha : getAuthenticatedClient "/home/u" demo_world = (Ret tt, demo_after_auth))
    by (vm_compute; reflexivity).
  assert (Hl : getListByName toLowerCase_sample (js "Shopping") demo_after_auth =
               (Ret (Some shop_list), demo_after_lookup)) by (vm_compute; reflexivity).
  split.
  - apply (proj1 (C2_add_category toLowerCase_sample "/home/u" demo_world demo_after_auth
             demo_after_lookup (js "Shopping") (js "Flour") None (js "Produce") shop_list
             Ha Hl eq_refl) "produce"%string "produce"%string).
    + left; reflexivity.
    + reflexivity.
  - apply (proj2 (C2_add_category toLowerCase_sample "/home/u" demo_world demo_after_auth
             demo_after_lookup (js "Shopping") (js "Flour") None (js "xyz") shop_list
             Ha Hl eq_refl)).
    + intros k Hk; simpl in Hk;
        repeat (destruct Hk as [<-|Hk]; [discriminate|]); contradiction.
    + intros m Hm; simpl in Hm;
        repeat (destruct Hm as [<-|Hm]; [discriminate|]); contradiction.
Defined.

(** ** C3: missing lists and items *)

Ltac run_exit_step :=
  cbv [bind exit teardown ret];
  repeat match goal with
         | |- context [if w_client ?w then _ else _] => destruct (w_client w)
         end; reflexivity.

(** C3: once authenticated, a list name that [getListByName] does not find
    makes [items], [add], [check], [uncheck], [remove] and [clear] exit
    with code 1; for a found list, an item name that [findItemByName] does
    not find in the list makes [checkItem] and [uncheckItem] return [null]
    and [removeItem] return [false], with no effect, and [check],
    [uncheck] and [remove] exit with code 1. *)
Theorem C3_not_found_exit_1 (toLowerCase : jsstr -> jsstr) (homedir : string)
    (w w1 w2 : World) (listName : jsstr)
    (Hauth : getAuthenticatedClient homedir w = (Ret tt, w1)) :
  (getListByName toLowerCase listName w1 = (Ret None, w2) ->
   forall (unchecked : bool) (itemName : jsstr) (quantity category : option jsstr),
     fst (cmd_items toLowerCase homedir listName unchecked w) = Exit Failure /\
     fst (cmd_add toLowerCase homedir listName itemName quantity category w) = Exit Failure /\
     fst (cmd_check toLowerCase homedir listName itemName w) = Exit Failure /\
     fst (cmd_uncheck toLowerCase homedir listName itemName w) = Exit Failure /\
     fst (cmd_remove toLowerCase homedir listName itemName w) = Exit Failure /\
     fst (cmd_clear toLowerCase homedir listName w) = Exit Failure) /\
  (forall (lst : AnyListList) (itemName : jsstr),
     getListByName toLowerCase listName w1 = (Ret (Some lst), w2) ->
     findItemByName toLowerCase (list_state w2 lst) itemName = None ->
     checkItem toLowerCase lst itemName w2 = (Ret None, w2) /\
     uncheckItem toLowerCase lst itemName w2 = (Ret None, w2) /\
     removeItem toLowerCase lst itemName w2 = (Ret false, w2) /\
     fst (cmd_check toLowerCase homedir listName itemName w) = Exit Failure /\
     fst (cmd_uncheck toLowerCase homedir listName itemName w) = Exit Failure /\
     fst (cmd_remove toLowerCase homedir listName itemName w) = Exit Failure).
Proof.
  split.
  - intros Hl unchecked itemName quantity category.
    repeat split;
      cbv [cmd_items cmd_add cmd_check cmd_uncheck cmd_remove cmd_clear try_catch bind];
      rewrite Hauth, Hl; run_exit_step.
  - intros lst itemName Hl Hf.
    assert (Hc : checkItem toLowerCase lst itemName w2 = (Ret None, w2))
      by (cbv [checkItem bind read_list gets]; rewrite Hf; reflexivity).
    assert (Hu : uncheckItem toLowerCase lst itemName w2 = (Ret None, w2))
      by (cbv [uncheckItem bind read_list gets]; rewrite Hf; reflexivity).
    assert (Hr : removeItem toLowerCase lst itemName w2 = (Ret false, w2))
      by (cbv [removeItem bind read_list gets]; rewrite Hf; reflexivity).
    repeat split; auto;
      cbv [cmd_check cmd_uncheck cmd_remove try_catch];
      unfold bind at 1; rewrite Hauth;
      unfold bind at 1; rewrite Hl;
      unfold bind at 1; rewrite ?Hc, ?Hu, ?Hr; run_exit_step.
Qed.

(** Witness: the list [Hardware] does not exist; [Shopping] has no
    [Butter]. *)
Lemma C3_not_found_exit_1_witness :
  fst (cmd_clear toLowerCase_sample "/home/u" (js "Hardware") demo_world) = Exit Failure /\
  fst (cmd_remove toLowerCase_sample "/home/u" (js "Shopping") (js "Butter") demo_world) = Exit Failure.
Proof.
  assert (Ha : getAuthenticatedClient "/home/u" demo_world = (Ret tt, demo_after_auth))
    by (vm_compute; reflexivity).
  split.
  - apply (proj1 (C3_not_found_exit_1 toLowerCase_sample "/home/u" demo_world demo_after_auth
             (snd (getListByName toLowerCase_sample (js "Hardware") demo_after_auth))
             (js "Hardware") Ha) (ltac:(vm_compute; reflexivity)) false [] None None).
  - apply (proj2 (C3_not_found_exit_1 toLowerCase_sample "/home/u" demo_world demo_after_auth
             demo_after_lookup (js "Shopping") Ha) shop_list (js "Butter")).
    + vm_compute; reflexivity.
    + vm_compute; reflexivity.
Defined.

(** ** JSON round trip of the config text *)

Lemma hexval_hexdigit (x : N) : x < 16 -> hexval (hexdigit x) = Some x.
Proof.
  intros H.
  assert (x = 0 \/ x = 1 \/ x = 2 \/ x = 3 \/ x = 4 \/ x = 5 \/ x = 6 \/ x = 7 \/
          x = 8 \/ x = 9 \/ x = 10 \/ x = 11 \/ x = 12 \/ x = 13 \/ x = 14 \/ x = 15)
    as Hx by lia.
  repeat destruct Hx as [-> | Hx]; try reflexivity; subst; reflexivity.
Qed.

Lemma hex4_value (c : N) : c < 65536 ->
  (((c / 16 / 16 / 16) mod 16 * 16 + (c / 16 / 16) mod 16) * 16 + (c / 16) mod 16) * 16
    + c mod 16 = c.
Proof.
  intros Hc.
  pose proof (N.div_mod c 16 ltac:(lia)) as E0.
  pose proof (N.div_mod (c / 16) 16 ltac:(lia)) as E1.
  pose proof (N.div_mod (c / 16 / 16) 16 ltac:(lia)) as E2.
  remember (c / 16 / 16 / 16) as a3 eqn:Ha3.
  remember (c / 16 / 16) as a2 eqn:Ha2.
  remember (c / 16) as a1 eqn:Ha1.
  remember (c mod 16) as r0.
  remember (a1 mod 16) as r1.
  remember (a2 mod 16) as r2.
  clear Ha1 Ha2 Ha3.
  assert (a3 < 16) by lia.
  rewrite (N.mod_small a3 16) by lia.
  lia.
Qed.

Lemma uescape_parse (c : N) (u : jsstr) : c < 65536 ->
  parse_str_body (uescape c ++ u) = cons_str c (parse_str_body u).
Proof.
  intros Hc; unfold uescape; cbn [app parse_str_body N.eqb Pos.eqb N.ltb].
  rewrite !hexval_hexdigit by (apply N.mod_lt; lia).
  rewrite hex4_value by exact Hc; reflexivity.
Qed.

Lemma esc1_parse (c : N) (u : jsstr) :
  parse_str_body (esc1 c ++ u) = cons_str c (parse_str_body u).
Proof.
  unfold esc1.
  destruct (c =? 34) eqn:E34; [apply N.eqb_eq in E34; subst; reflexivity|].
  destruct (c =? 92) eqn:E92; [apply N.eqb_eq in E92; subst; reflexivity|].
  destruct (c =? 8) eqn:E8; [apply N.eqb_eq in E8; subst; reflexivity|].
  destruct (c =? 12) eqn:E12; [apply N.eqb_eq in E12; subst; reflexivity|].
  destruct (c =? 10) eqn:E10; [apply N.eqb_eq in E10; subst; reflexivity|].
  destruct (c =? 13) eqn:E13; [apply N.eqb_eq in E13; subst; reflexivity|].
  destruct (c =? 9) eqn:E9; [apply N.eqb_eq in E9; subst; reflexivity|].
  destruct ((c <? 32) || is_high c || is_low c) eqn:Eu.
  - apply uescape_parse.
    unfold is_high, is_low in Eu.
    rewrite !orb_true_iff, !andb_true_iff, N.ltb_lt, !N.leb_le in Eu; lia.
  - rewrite !orb_false_iff in Eu; destruct Eu as [[Elt _] _].
    simpl; rewrite E34, E92, Elt; reflexivity.
Qed.

Lemma raw_parse_high (c : N) (u : jsstr) : 55296 <= c ->
  parse_str_body (c :: u) = cons_str c (parse_str_body u).
Proof.
  intros Hc; simpl.
  replace (c =? 34) with false by (symmetry; apply N.eqb_neq; lia).
  replace (c =? 92) with false by (symmetry; apply N.eqb_neq; lia).
  replace (c <? 32) with false by (symmetry; apply N.ltb_ge; lia).
  reflexivity.
Qed.

Lemma json_escape_parse (s t : jsstr) :
  parse_str_body (json_escape s ++ 34 :: t) = Some (s, t).
Proof.
  remember (List.length s) as n eqn:Hn.
  revert s Hn; induction n as [n IH] using (well_founded_induction lt_wf); intros s Hn.
  destruct s as [|c rest]; [reflexivity|].
  simpl json_escape.
  destruct (is_high c) eqn:Eh.
  - destruct rest as [|d rest'].
    + rewrite esc1_parse; reflexivity.
    + destruct (is_low d) eqn:El.
      * unfold is_high, is_low in Eh, El.
        rewrite !andb_true_iff, !N.leb_le in Eh, El.
        simpl (_ ++ _).
        rewrite (raw_parse_high c) by lia.
        rewrite raw_parse_high by lia.
        rewrite (IH (List.length rest')) by (simpl in Hn; lia || reflexivity).
        reflexivity.
      * rewrite <- app_assoc, esc1_parse, (IH (List.length (d :: rest'))) by
          (simpl in *; lia || reflexivity).
        reflexivity.
  - rewrite <- app_assoc, esc1_parse, (IH (List.length rest)) by
      (simpl in *; lia || reflexivity).
    reflexivity.
Qed.

Lemma stringify_config_parse (config : AnyListConfig) :
  json_parse_object (stringify_config config) =
  Some [(js "email", email config); (js "password", password config)].
Proof.
  unfold json_parse_object, stringify_config; simpl.
  rewrite json_escape_parse; simpl.
  rewrite json_escape_parse; simpl.
  reflexivity.
Qed.

Lemma writeFileSync_content (fs fs' : FS) (parent p : string) (data : jsstr) (mode : N) :
  writeFileSync fs parent p data mode = Some fs' ->
  exists m, fs_node fs' p = Some (NFile data m).
Proof.
  unfold writeFileSync.
  destruct (fs_node fs parent) as [[|]|]; try discriminate.
  destruct (fs_node fs p) as [[|c m]|]; try discriminate;
    intros H; injection H; intros <-; simpl; rewrite String.eqb_refl; eauto.
Qed.

(** ** C6: saving then loading the config *)

(** C6: when [saveConfig] completes, the config file holds exactly the
    JSON text of the config, whatever it held before, and [loadConfig]
    then returns an object whose [email] and [password] are the saved
    ones. *)
Theorem C6_save_then_load (homedir : string) (config : AnyListConfig) (fs fs' : FS)
    (Hsave : saveConfig homedir config fs = Some fs') :
  (exists m, fs_node fs' (CONFIG_FILE homedir) = Some (NFile (stringify_config config) m)) /\
  exists o, loadConfig homedir fs' = Some o /\
    json_prop o (js "email") = Some (email config) /\
    json_prop o (js "password") = Some (password config).
Proof.
  unfold saveConfig in Hsave.
  destruct (if existsSync fs (CONFIG_DIR homedir) then Some fs else mkdirSync_recursive homedir fs)
    as [fs1|]; [|discriminate]; simpl in Hsave.
  destruct (writeFileSync_content _ _ _ _ _ _ Hsave) as [m Hm].
  split; [eauto|].
  exists [(js "email", email config); (js "password", password config)].
  unfold loadConfig, existsSync; rewrite Hm; simpl.
  rewrite stringify_config_parse; auto.
Qed.

(** Witness: saving into an empty home directory. *)
Lemma C6_save_then_load_witness :
  exists fs', saveConfig "/home/u" (mkConfig (js "me@example.com") (js "p\w")) fs_home = Some fs' /\
  exists o, loadConfig "/home/u" fs' = Some o /\ json_prop o (js "email") = Some (js "me@example.com").
Proof.
  eexists; split; [vm_compute; reflexivity|].
  destruct (C6_save_then_load "/home/u" (mkConfig (js "me@example.com") (js "p\w")) fs_home
              _ ltac:(vm_compute; reflexivity)) as [_ (o & Ho & He & _)].
  exists o; split; [exact Ho | exact He].
Defined.

(** ** C7: permissions of the saved file *)

(** C7 (code bug): [saveConfig] over a config file that already exists
    with mode [0o644] rewrites its contents but leaves the mode at
    [0o644]: the [mode: 0o600] option only applies when the file is
    created. *)
Theorem C7_existing_file_keeps_mode :
  exists fs', saveConfig "/home/u" (mkConfig (js "me@example.com") (js "secret")) fs_stale = Some fs' /\
  fs_node fs' "/home/u/.config/anylist-cli/config.json" =
    Some (NFile (stringify_config (mkConfig (js "me@example.com") (js "secret"))) 420) /\
  420 <> 384.
Proof.
  eexists; split; [vm_compute; reflexivity|].
  split; [vm_compute; reflexivity | discriminate].
Qed.

(** ** C8: teardown before exit *)

(** C8 (code bug): in [check Shopping Milk], when [item.save()] rejects
    (third remote call), the error reaches the action's [catch], which
    exits with code 1 without calling [teardown]: the client connection is
    still set and no teardown happened. *)
Theorem C8_catch_skips_teardown :
  fst check_save_rejects = Exit Failure /\
  w_client (snd check_save_rejects) = true /\
  ~ In EvTeardown (w_trace (snd check_save_rejects)).
Proof. vm_compute; repeat split; auto; intros H; repeat (destruct H as [H|H]; [discriminate|]); exact H. Qed.

(** ** C9: [addItem] on an existing item *)

(** C9 (counterexample): [Milk] is unchecked with quantity [2]; adding
    [Milk] with quantity [2] changes no field (the lists are as before) but
    [save] is still called. *)
Lemma C9_save_without_change :
  w_lists (snd readd_milk) = w_lists demo_world /\
  In (EvSave 20) (w_trace (snd readd_milk)).
Proof. vm_compute; split; [reflexivity | left; reflexivity]. Qed.

(** C9 (amended): when the list holds an item whose name equals the
    requested one up to ASCII case, [findItemByName] finds an item [it] and
    [addItem] creates nothing: it writes back [it] unchecked, with the
    quantity replaced only by a non-empty quantity argument, the category
    only by a truthy one and the details whenever [details] is not
    [undefined]; it calls [save] exactly when [it] was checked or one of
    these arguments was given (whether or not the value differs), and
    returns the updated item's info.  When [findItemByName] finds nothing,
    [addItem] creates a new item and adds it to the list. *)
Theorem C9_addItem_existing (toLowerCase : jsstr -> jsstr)
    (Hlow : forall s t, ascii_ci_eq s t = true -> toLowerCase s = toLowerCase t)
    (lst : AnyListList) (w : World) (name : jsstr) (quantity : option jsstr)
    (categoryMatchId : JSValue) (details : option jsstr) :
  ((exists e, In e (l_items (list_state w lst)) /\ ascii_ci_eq (i_name e) name = true) ->
   exists it, findItemByName toLowerCase (list_state w lst) name = Some it /\
     let it' := updated_existing it quantity categoryMatchId details in
     let needsSave := i_checked it || opt_truthy quantity || val_truthy categoryMatchId ||
                      match details with Some _ => true | None => false end in
     let w1 := snd (write_item (l_ref lst) it' w) in
     addItem toLowerCase lst name quantity categoryMatchId details w =
     if needsSave then
       (match fst (item_save it' w1) with
        | Ret _ => Ret (item_info it')
        | Exit n => Exit n
        | Throw => Throw
        end, snd (item_save it' w1))
     else (Ret (item_info it'), w1)) /\
  (findItemByName toLowerCase (list_state w lst) name = None ->
   addItem toLowerCase lst name quantity categoryMatchId details w =
   (item <- createItem name (if opt_truthy quantity then quantity else None) details
                       (if val_truthy categoryMatchId then categoryMatchId else JUndefined);;
    added <- list_addItem lst item;;
    ret (item_info added)) w).
Proof.
  split.
  - intros (e & He & Hci).
    destruct (exact_then_lowered toLowerCase Hlow i_name (l_items (list_state w lst)) name e He Hci)
      as (it & Hit & _).
    assert (Hf : findItemByName toLowerCase (list_state w lst) name = Some it) by exact Hit.
    exists it; split; [exact Hf|].
    cbv zeta.
    cbv [addItem bind read_list gets].
    rewrite Hf.
    destruct it as [r nm q ch ident cat det]; simpl.
    cbv [write_item modify item_save ret updated_existing set_checked set_quantity
         set_category set_details]; simpl.
    destruct ch, (opt_truthy quantity), (val_truthy categoryMatchId), details; simpl;
      try reflexivity;
      match goal with |- context [remote ?e ?w'] => destruct (remote e w') as [[] ?] end;
      reflexivity.
  - intros Hnone.
    cbv [addItem bind read_list gets].
    rewrite Hnone; reflexivity.
Qed.

(** Witness: adding [milk] with quantity [3] to [Shopping]. *)
Lemma C9_addItem_existing_witness :
  exists it, findItemByName toLowerCase_sample (list_state demo_world shop_list) (js "milk") = Some it /\
  i_ref it = 20%nat.
Proof.
  assert (Hm : exists e, In e (l_items (list_state demo_world shop_list)) /\
                         ascii_ci_eq (i_name e) (js "milk") = true)
    by (exists milk; vm_compute; split; [left; reflexivity | reflexivity]).
  destruct (proj1 (C9_addItem_existing toLowerCase_sample toLowerCase_sample_ascii_ci shop_list
                     demo_world (js "milk") (Some (js "3")) JUndefined None) Hm) as (it & Hf & _).
  exists it; split; [exact Hf|].
  vm_compute in Hf; injection Hf; intros <-; reflexivity.
Defined.

(** ** C10: [clearChecked] *)

Lemma remote_lists (e : Event) (w : World) : w_lists (snd (remote e w)) = w_lists w.
Proof. unfold remote; destruct (w_net w) as [|[] ?]; reflexivity. Qed.

Lemma list_state_map_list (w : World) (lst : AnyListList) (f : list Item -> list Item) :
  (exists l, In l (w_lists w) /\ l_ref l = l_ref lst) ->
  l_items (list_state (map_list (l_ref lst) f w) lst) = f (l_items (list_state w lst)) /\
  (exists l, In l (w_lists (map_list (l_ref lst) f w)) /\ l_ref l = l_ref lst).
Proof.
  unfold list_state, map_list, set_lists; simpl.
  induction (w_lists w) as [|l ls IH]; simpl; intros (l0 & Hin & Hr); [contradiction|].
  destruct (Nat.eqb (l_ref l) (l_ref lst)) eqn:E; simpl.
  - rewrite E; split; [reflexivity|].
    exists (mkList (l_ref l) (l_name l) (l_identifier l) (f (l_items l))); split; [left; reflexivity|].
    apply Nat.eqb_eq; exact E.
  - rewrite E.
    destruct Hin as [<-|Hin]; [rewrite Hr, Nat.eqb_refl in E; discriminate|].
    destruct (IH (ex_intro _ l0 (conj Hin Hr))) as [H1 (l1 & H2 & H3)].
    split; [exact H1|]. exists l1; split; [right; exact H2 | exact H3].
Qed.

Lemma filter_filter_comm_aux (p q : Item -> bool) (l : list Item) :
  filter p (filter q l) = filter (fun i => q i && p i) l.
Proof.
  induction l as [|a l IH]; simpl; auto.
  destruct (q a); simpl; [destruct (p a); simpl; congruence | exact IH].
Qed.

Lemma remove_each_spec (lst : AnyListList) (xs : list Item) :
  forall (count n : nat) (w w' : World),
  (exists l, In l (w_lists w) /\ l_ref l = l_ref lst) ->
  remove_each lst xs count w = (Ret n, w') ->
  n = (count + List.length xs)%nat /\
  l_items (list_state w' lst) = filter (removed_all xs) (l_items (list_state w lst)).
Proof.
  induction xs as [|x xs IH]; intros count n w w' Hex Hrun.
  - simpl in Hrun; injection Hrun; intros <- <-; split; [simpl; lia|].
    unfold removed_all; simpl; symmetry; apply forallb_filter_id, forallb_forall; auto.
  - simpl in Hrun; unfold bind, list_removeItem, bind, modify in Hrun.
    pose proof (remote_lists (EvListRemove (l_ref lst) (i_ref x)) w) as Hl.
    destruct (remote (EvListRemove (l_ref lst) (i_ref x)) w) as [[] w1]; try discriminate.
    simpl in Hl.
    assert (Hex1 : exists l, In l (w_lists w1) /\ l_ref l = l_ref lst) by (rewrite Hl; exact Hex).
    destruct (list_state_map_list w1 lst (filter (fun i => negb (Nat.eqb (i_ref i) (i_ref x)))) Hex1)
      as [Hs Hex2].
    destruct (IH (S count) n _ w' Hex2 Hrun) as [Hn Hitems].
    split; [simpl; lia|].
    rewrite Hitems, Hs.
    assert (Hw : list_state w1 lst = list_state w lst) by (unfold list_state; rewrite Hl; reflexivity).
    rewrite Hw, filter_filter_comm_aux.
    apply filter_ext; intros i; unfold removed_all; simpl.
    rewrite (Nat.eqb_sym (i_ref x) (i_ref i)).
    destruct (Nat.eqb (i_ref i) (i_ref x)); reflexivity.
Qed.

Lemma removed_all_checked (L : list Item)
    (Hid : forall a b, In a L -> In b L -> i_ref a = i_ref b -> a = b) :
  filter (removed_all (filter i_checked L)) L = filter (fun i => negb (i_checked i)) L.
Proof.
  apply filter_ext_in; intros i Hi; unfold removed_all.
  destruct (i_checked i) eqn:Hc; simpl.
  - apply negb_false_iff, existsb_exists.
    exists i; split; [apply filter_In; auto | apply Nat.eqb_refl].
  - apply negb_true_iff.
    destruct (existsb (fun x => Nat.eqb (i_ref x) (i_ref i)) (filter i_checked L)) eqn:E; [|reflexivity].
    apply existsb_exists in E as (x & Hx & Hr).
    apply filter_In in Hx as [HxL Hxc].
    apply Nat.eqb_eq in Hr.
    rewrite (Hid x i HxL Hi Hr), Hc in Hxc; discriminate.
Qed.

(** C10: when [clearChecked] on a list present in the session completes
    (every removal call succeeds) and no two item objects of the list share
    an identity, it returns the number of checked items, the list keeps
    exactly its unchecked items in their order, and on a list without
    checked items it returns 0 and leaves the items as they were. *)
Theorem C10_clearChecked (lst : AnyListList) (w w' : World) (n : nat)
    (Hin : exists l, In l (w_lists w) /\ l_ref l = l_ref lst)
    (Hid : forall a b, In a (l_items (list_state w lst)) -> In b (l_items (list_state w lst)) ->
                       i_ref a = i_ref b -> a = b)
    (Hrun : clearChecked lst w = (Ret n, w')) :
  n = List.length (filter i_checked (l_items (list_state w lst))) /\
  l_items (list_state w' lst) = filter (fun i => negb (i_checked i)) (l_items (list_state w lst)) /\
  (forallb (fun i => negb (i_checked i)) (l_items (list_state w lst)) = true ->
   n = 0%nat /\ l_items (list_state w' lst) = l_items (list_state w lst)).
Proof.
  unfold clearChecked, bind, read_list, gets in Hrun.
  destruct (remove_each_spec lst _ 0 n w w' Hin Hrun) as [Hn Hitems].
  rewrite removed_all_checked in Hitems by exact Hid.
  split; [exact Hn|]. split; [exact Hitems|].
  intros Hall.
  assert (Hf : filter (fun i => negb (i_checked i)) (l_items (list_state w lst)) =
               l_items (list_state w lst)) by (apply forallb_filter_id; exact Hall).
  assert (Hc : filter i_checked (l_items (list_state w lst)) = []).
  { clear -Hall; revert Hall; generalize (l_items (list_state w lst)).
    intros L; induction L as [|a L IH]; intros Hall; [reflexivity|].
    simpl in Hall |- *; apply andb_true_iff in Hall as [Ha HL].
    destruct (i_checked a); [discriminate|exact (IH HL)]. }
  rewrite Hc in Hn; simpl in Hn.
  split; [exact Hn|]. rewrite Hitems; exact Hf.
Qed.

(** Witness: clearing [Shopping] in the demo session, where [eggs] and
    [bread] are checked, removes both and keeps [milk]. *)
Lemma C10_clearChecked_witness :
  fst (clearChecked shop_list demo_world) = Ret 2%nat /\
  l_items (list_state (snd (clearChecked shop_list demo_world)) shop_list) = [milk].
Proof.
  assert (Hin : exists l, In l (w_lists demo_world) /\ l_ref l = l_ref shop_list)
    by (exists shop_list; split; [right; left; reflexivity | reflexivity]).
  assert (Hid : forall a b, In a (l_items (list_state demo_world shop_list)) ->
                            In b (l_items (list_state demo_world shop_list)) ->
                            i_ref a = i_ref b -> a = b).
  { vm_compute; intros a b Ha Hb Hr.
    destruct Ha as [<-|[<-|[<-|[]]]]; destruct Hb as [<-|[<-|[<-|[]]]];
      vm_compute in Hr; first [reflexivity | discriminate]. }
  destruct (C10_clearChecked shop_list demo_world (snd (clearChecked shop_list demo_world)) 2
              Hin Hid) as [_ [Hitems _]].
  - vm_compute; reflexivity.
  - split; [vm_compute; reflexivity|].
    rewrite Hitems; vm_compute; reflexivity.
Defined.

(** ** C4: exit codes of usage errors *)

(** C4: an option given without its required value (Commander's error
    code [commander.optionMissingArgument], e.g. [anylist add Groceries
    milk --category]) and an unknown command ([commander.unknownCommand])
    are usage errors, yet [exitOverride] does not list their codes and the
    process exits with Commander's default code 1 (Failure), not 2
    (InvalidUsage). *)
Theorem C4_option_missing_argument_exit_1 (toLowerCase : jsstr -> jsstr) (homedir : string)
    (w : World) :
  run_program toLowerCase homedir (ParseError "commander.optionMissingArgument" 1) w = Failure /\
  run_program toLowerCase homedir (ParseError "commander.unknownCommand" 1) w = Failure /\
  Failure <> InvalidUsage.
Proof.
  split; [reflexivity|]. split; [reflexivity|]. discriminate.
Qed.

(** ** C5: environment credentials take precedence *)

(** C5: when [ANYLIST_EMAIL] and [ANYLIST_PASSWORD] are both set to
    non-empty strings, [requireConfig] returns them and leaves the process
    state untouched (the config file is neither probed nor read); when they
    are not (one is unset or empty), the result is decided by the file
    alone: its email and password when both are non-empty strings, an exit
    with code 3 (AuthFailure) otherwise. *)
Theorem C5_env_overrides_file (homedir : string) (w : World) :
  (forall e p, w_env_email w = Some e -> w_env_password w = Some p ->
   str_truthy e && str_truthy p = true ->
   requireConfig homedir w = (Ret (mkConfig e p), w)) /\
  (fst (loadConfigFromEnv w) = Ret None ->
   fst (requireConfig homedir w) =
   match loadConfig homedir (w_fs w) with
   | Some o =>
       match json_prop o (js "email"), json_prop o (js "password") with
       | Some e, Some p =>
           if str_truthy e && str_truthy p then Ret (mkConfig e p) else Exit AuthFailure
       | _, _ => Exit AuthFailure
       end
   | None => Exit AuthFailure
   end).
Proof.
  split.
  - intros e p He Hp Ht.
    unfold requireConfig, loadConfigFromEnv, bind, gets; rewrite He, Hp, Ht; reflexivity.
  - unfold requireConfig, bind; destruct (loadConfigFromEnv w) as [r w1] eqn:E.
    simpl; intros ->.
    assert (w1 = w) as -> by (unfold loadConfigFromEnv, gets in E; congruence).
    unfold loadConfigM; simpl.
    destruct (loadConfig homedir (w_fs w)) as [o|]; [|reflexivity].
    repeat match goal with
           | |- context [json_prop o ?k] => destruct (json_prop o k)
           | |- context [str_truthy ?e && str_truthy ?p] => destruct (str_truthy e && str_truthy p)
           end; reflexivity.
Qed.

(** Witness: the demo session has credentials in its environment; the run
    without them reads the stale config file of [fs_stale], whose [{}]
    holds no credentials. *)
Lemma C5_env_overrides_file_witness :
  requireConfig "/home/u" demo_world = (Ret (mkConfig (js "me@example.com") (js "secret")), demo_world) /\
  fst (requireConfig "/home/u" (mkWorld None None fs_stale [] [] false 100 [])) = Exit AuthFailure.
Proof.
  split.
  - apply (proj1 (C5_env_overrides_file "/home/u" demo_world)); reflexivity.
  - rewrite (proj2 (C5_env_overrides_file "/home/u" (mkWorld None None fs_stale [] [] false 100 []))
               eq_refl).
    vm_compute; reflexivity.
Defined.

(** * Further properties of the code *)

(** ** Exit codes of the dispatched commands *)

Lemma exits_bind {A B} (P : Z -> Prop) (m : M A) (k : A -> M B) :
  exits_in P m -> (forall a, exits_in P (k a)) -> exits_in P (bind m k).
Proof.
  intros Hm Hk w; unfold bind; specialize (Hm w).
  destruct (m w) as [[a|n|] w']; simpl in *; auto; apply Hk.
Qed.

Lemma exits_ret {A} (P : Z -> Prop) (a : A) : exits_in P (ret a).
Proof. intros w; exact I. Qed.

Lemma exits_exit {A} (P : Z -> Prop) (n : Z) : P n -> exits_in P (@exit A n).
Proof. intros H w; exact H. Qed.

Lemma exits_gets {A} (P : Z -> Prop) (f : World -> A) : exits_in P (gets f).
Proof. intros w; exact I. Qed.

Lemma exits_modify (P : Z -> Prop) (f : World -> World) : exits_in P (modify f).
Proof. intros w; exact I. Qed.

Lemma exits_remote (P : Z -> Prop) (e : Event) : exits_in P (remote e).
Proof. intros w; unfold remote; destruct (w_net w) as [|[] ?]; exact I. Qed.

Lemma exits_teardown (P : Z -> Prop) : exits_in P teardown.
Proof. intros w; unfold teardown; destruct (w_client w); exact I. Qed.

Lemma exits_createItem (P : Z -> Prop) n q d c : exits_in P (createItem n q d c).
Proof. intros w; exact I. Qed.

Lemma exits_try_catch {A} (P : Z -> Prop) (m h : M A) :
  exits_in P m -> exits_in P h -> exits_in P (try_catch m h).
Proof.
  intros Hm Hh w; unfold try_catch; specialize (Hm w).
  destruct (m w) as [[a|n|] w']; simpl in *; auto; apply Hh.
Qed.

Lemma exits_if {A} (P : Z -> Prop) (b : bool) (m1 m2 : M A) :
  exits_in P m1 -> exits_in P m2 -> exits_in P (if b then m1 else m2).
Proof. destruct b; auto. Qed.

Create HintDb exits.
#[local] Hint Resolve exits_ret exits_gets exits_modify exits_remote exits_teardown
  exits_createItem exits_try_catch exits_if : exits.

Ltac exits_tac :=
  repeat first
    [ lazymatch goal with |- exits_in _ _ => fail | |- forall _, _ => intros ? end
    | apply exits_bind
    | apply exits_try_catch
    | apply exits_exit; solve [auto]
    | solve [eauto with exits]
    | match goal with
      | |- exits_in _ (match ?x with _ => _ end) => destruct x
      | |- exits_in _ (if ?x then _ else _) => destruct x
      end
    | progress cbv beta iota zeta ].

Lemma exits_getListByName P tl name : exits_in P (getListByName tl name).
Proof.
  unfold getListByName, client_getLists; exits_tac.
Qed.

Lemma exits_remove_each P lst xs count : exits_in P (remove_each lst xs count).
Proof.
  revert count; induction xs as [|x xs IH]; intros count; simpl; [apply exits_ret|].
  unfold list_removeItem; exits_tac.
Qed.

Lemma exits_items_ops P tl lst name q c d :
  exits_in P (addItem tl lst name q c d) /\ exits_in P (checkItem tl lst name) /\
  exits_in P (uncheckItem tl lst name) /\ exits_in P (removeItem tl lst name) /\
  exits_in P (clearChecked lst).
Proof.
  unfold addItem, checkItem, uncheckItem, removeItem, clearChecked, read_list, write_item,
    item_save, list_addItem, list_removeItem.
  repeat split; exits_tac; try apply exits_remove_each;
  repeat (match goal with
          | |- exits_in _ (let '(_, _) := ?x in _) => destruct x
          | |- exits_in _ (match ?x with _ => _ end) => destruct x
          end; exits_tac).
Qed.

Lemma exits_requireConfig P homedir : P AuthFailure -> exits_in P (requireConfig homedir).
Proof.
  intros HA; unfold requireConfig, loadConfigFromEnv, loadConfigM.
  exits_tac; intros w; exact I.
Qed.

Lemma exits_getAuthenticatedClient P homedir :
  P AuthFailure -> exits_in P (getAuthenticatedClient homedir).
Proof.
  intros HA; unfold getAuthenticatedClient, getClient.
  apply exits_bind; [apply exits_requireConfig; exact HA|]; exits_tac.
Qed.

Lemma exits_add_category P tl c : P InvalidUsage -> exits_in P (add_category tl c).
Proof. intros H; unfold add_category; exits_tac. Qed.

Lemma exits_weaken {A} (P Q : Z -> Prop) (m : M A) :
  (forall n, P n -> Q n) -> exits_in P m -> exits_in Q m.
Proof. intros HPQ Hm w; specialize (Hm w); destruct (fst (m w)); auto. Qed.

Lemma try_catch_exit_not_throw {A} (m : M A) (n : Z) (w : World) :
  fst (try_catch m (exit n) w) <> Throw.
Proof. unfold try_catch, exit; destruct (m w) as [[]]; simpl; discriminate. Qed.

Lemma exits_addItem P tl lst name q c d : exits_in P (addItem tl lst name q c d).
Proof. apply (exits_items_ops P tl lst name q c d). Qed.
Lemma exits_checkItem P tl lst name : exits_in P (checkItem tl lst name).
Proof. apply (exits_items_ops P tl lst name None JUndefined None). Qed.
Lemma exits_uncheckItem P tl lst name : exits_in P (uncheckItem tl lst name).
Proof. apply (exits_items_ops P tl lst name None JUndefined None). Qed.
Lemma exits_removeItem P tl lst name : exits_in P (removeItem tl lst name).
Proof. apply (exits_items_ops P tl lst name None JUndefined None). Qed.
Lemma exits_clearChecked P lst : exits_in P (clearChecked lst).
Proof. apply (exits_items_ops P id lst [] None JUndefined None). Qed.

#[local] Hint Resolve exits_getListByName exits_addItem exits_checkItem exits_uncheckItem
  exits_removeItem exits_clearChecked : exits.

Lemma exits_dispatch tl homedir c :
  exits_in (fun n => n = Failure \/ n = AuthFailure \/
                     (n = InvalidUsage /\ exists l i q cat, c = CAdd l i q cat))
           (dispatch tl homedir c).
Proof.
  destruct c; simpl;
    unfold cmd_lists, cmd_items, cmd_add, cmd_check, cmd_uncheck, cmd_remove, cmd_clear, getLists,
      client_getLists, read_list;
    (apply exits_try_catch; [|apply exits_exit; left; reflexivity]);
    (apply exits_bind; [apply exits_getAuthenticatedClient; right; left; reflexivity|]);
    exits_tac.
  all: try (apply exits_add_category; right; right; split; [reflexivity | eauto]).
  all: try (apply exits_exit; left; reflexivity).
  all: apply exits_remove_each.
Qed.

(** X1: every authenticated command's action ends normally, or through
    [process.exit] with code 1 (Failure) or 3 (AuthFailure), or with code 2
    (InvalidUsage) only for [add]; no error escapes the actions' [catch]
    blocks, so the exit status of a dispatched command is always one of
    0, 1, 2 and 3. *)
Theorem X1_dispatch_exit_codes (toLowerCase : jsstr -> jsstr) (homedir : string) (c : Cmd)
    (w : World) :
  match fst (dispatch toLowerCase homedir c w) with
  | Ret _ => True
  | Exit n => n = Failure \/ n = AuthFailure \/
              (n = InvalidUsage /\ exists l i q cat, c = CAdd l i q cat)
  | Throw => False
  end /\
  In (run_program toLowerCase homedir (Dispatch c) w) [Success; Failure; InvalidUsage; AuthFailure].
Proof.
  assert (Hnt : fst (dispatch toLowerCase homedir c w) <> Throw)
    by (destruct c; apply try_catch_exit_not_throw).
  pose proof (exits_dispatch toLowerCase homedir c w) as He.
  simpl run_program; unfold exit_status.
  destruct (fst (dispatch toLowerCase homedir c w)) as [a|n|]; [| |contradiction].
  - split; [exact I | left; reflexivity].
  - split; [exact He|].
    destruct He as [->|[->|[-> _]]]; simpl; tauto.
Qed.

(** ** Teardown on the normal end of a command *)

Lemma keeps_bind {A B} (m : M A) (k : A -> M B) :
  keeps_client m -> (forall a, keeps_client (k a)) -> keeps_client (bind m k).
Proof.
  intros Hm Hk w; unfold bind; specialize (Hm w).
  destruct (m w) as [[a|n|] w']; simpl in *; auto; rewrite Hk; exact Hm.
Qed.

Lemma keeps_ret {A} (a : A) : keeps_client (ret a).
Proof. intros w; reflexivity. Qed.
Lemma keeps_exit {A} (n : Z) : keeps_client (@exit A n).
Proof. intros w; reflexivity. Qed.
Lemma keeps_gets {A} (f : World -> A) : keeps_client (gets f).
Proof. intros w; reflexivity. Qed.
Lemma keeps_remote (e : Event) : keeps_client (remote e).
Proof. intros w; unfold remote; destruct (w_net w) as [|[] ?]; reflexivity. Qed.
Lemma keeps_map_list lr f : keeps_client (modify (map_list lr f)).
Proof. intros w; reflexivity. Qed.
Lemma keeps_createItem n q d c : keeps_client (createItem n q d c).
Proof. intros w; reflexivity. Qed.
Lemma keeps_if {A} (b : bool) (m1 m2 : M A) :
  keeps_client m1 -> keeps_client m2 -> keeps_client (if b then m1 else m2).
Proof. destruct b; auto. Qed.

Create HintDb keeps.
#[local] Hint Resolve keeps_ret keeps_exit keeps_gets keeps_remote keeps_map_list
  keeps_createItem keeps_if : keeps.

Ltac keeps_tac :=
  repeat first
    [ lazymatch goal with |- keeps_client _ => fail | |- forall _, _ => intros ? end
    | apply keeps_bind
    | solve [eauto with keeps]
    | match goal with
      | |- keeps_client (match ?x with _ => _ end) => destruct x
      | |- keeps_client (if ?x then _ else _) => destruct x
      | |- keeps_client (let '(_, _) := ?x in _) => destruct x
      end
    | progress cbv beta iota zeta ].

Lemma keeps_getListByName tl name : keeps_client (getListByName tl name).
Proof. unfold getListByName, client_getLists; keeps_tac. Qed.

Lemma keeps_remove_each lst xs count : keeps_client (remove_each lst xs count).
Proof.
  revert count; induction xs as [|x xs IH]; intros count; simpl; [apply keeps_ret|].
  unfold list_removeItem; keeps_tac.
Qed.

Lemma keeps_items_ops tl lst name q c d :
  keeps_client (addItem tl lst name q c d) /\ keeps_client (checkItem tl lst name) /\
  keeps_client (uncheckItem tl lst name) /\ keeps_client (removeItem tl lst name) /\
  keeps_client (clearChecked lst) /\ keeps_client (read_list lst).
Proof.
  unfold addItem, checkItem, uncheckItem, removeItem, clearChecked, read_list, write_item,
    item_save, list_addItem, list_removeItem.
  repeat split; keeps_tac; apply keeps_remove_each.
Qed.

Lemma post_bind {A B} (P Q R : World -> Prop) (m : M A) (k : A -> M B) :
  post_ret P Q m -> (forall a, post_ret Q R (k a)) -> post_ret P R (bind m k).
Proof.
  intros Hm Hk w b w' HP; unfold bind.
  destruct (m w) as [[a|n|] w1] eqn:E; try discriminate.
  intros H2; exact (Hk a w1 b w' (Hm w a w1 HP E) H2).
Qed.

Lemma post_ret_ret {A} (P : World -> Prop) (a : A) : post_ret P P (ret a).
Proof. intros w b w' HP H; injection H; intros <- _; exact HP. Qed.

Lemma post_exit {A} (P Q : World -> Prop) (n : Z) : post_ret P Q (@exit A n).
Proof. intros w b w' _ H; discriminate. Qed.

Lemma post_try_catch_exit {A} (P Q : World -> Prop) (m : M A) (n : Z) :
  post_ret P Q m -> post_ret P Q (try_catch m (exit n)).
Proof.
  intros Hm w b w' HP; unfold try_catch.
  destruct (m w) as [[a|k|] w1] eqn:E; try discriminate.
  intros H; injection H; intros <- <-; exact (Hm w a w1 HP E).
Qed.

Lemma post_keeps {A} (m : M A) :
  keeps_client m -> post_ret (fun w => w_client w = true) (fun w => w_client w = true) m.
Proof.
  intros Hk w a w' HP H; specialize (Hk w); rewrite H in Hk; simpl in Hk; congruence.
Qed.

Lemma post_getAuthenticatedClient homedir :
  post_ret (fun _ => True) (fun w => w_client w = true) (getAuthenticatedClient homedir).
Proof.
  unfold getAuthenticatedClient.
  apply post_bind with (Q := fun _ => True); [intros w a w' _ _; exact I|].
  intros cfg; apply post_try_catch_exit.
  unfold getClient.
  apply post_bind with (Q := fun _ => True); [intros w a w' _ _; exact I|].
  intros u w a w' _ H; injection H; intros <- _; reflexivity.
Qed.

Lemma post_teardown :
  post_ret (fun w => w_client w = true) torn_down teardown.
Proof.
  intros w a w' HP; unfold teardown; rewrite HP.
  intros H; injection H; intros <- _; split; [reflexivity | left; reflexivity].
Qed.

Lemma post_add_category (P : World -> Prop) tl c : post_ret P P (add_category tl c).
Proof.
  unfold add_category; destruct c as [c|]; [|apply post_ret_ret].
  destruct (str_truthy c); [|apply post_ret_ret].
  destruct (negb (val_truthy (category_lookup (tl c)))); [|apply post_ret_ret].
  apply post_bind with (Q := fun _ => True); [intros w a w' _ _; exact I|].
  intros _; apply post_exit.
Qed.

Ltac post_tail :=
  try lazymatch goal with |- post_ret _ _ _ => fail | |- forall _, _ => intros ? end;
  apply post_bind with (Q := torn_down); [apply post_teardown|];
  intros ?; repeat match goal with
                   | |- post_ret _ _ (match ?x with _ => _ end) => destruct x
                   | |- post_ret _ _ (if ?x then _ else _) => destruct x
                   end;
  first [apply post_ret_ret | apply post_exit].

Lemma keeps_addItem tl lst name q c d : keeps_client (addItem tl lst name q c d).
Proof. apply (keeps_items_ops tl lst name q c d). Qed.
Lemma keeps_checkItem tl lst name : keeps_client (checkItem tl lst name).
Proof. apply (keeps_items_ops tl lst name None JUndefined None). Qed.
Lemma keeps_uncheckItem tl lst name : keeps_client (uncheckItem tl lst name).
Proof. apply (keeps_items_ops tl lst name None JUndefined None). Qed.
Lemma keeps_removeItem tl lst name : keeps_client (removeItem tl lst name).
Proof. apply (keeps_items_ops tl lst name None JUndefined None). Qed.
Lemma keeps_clearChecked lst : keeps_client (clearChecked lst).
Proof. apply (keeps_items_ops id lst [] None JUndefined None). Qed.
Lemma keeps_read_list lst : keeps_client (read_list lst).
Proof. apply (keeps_items_ops id lst [] None JUndefined None). Qed.

Lemma keeps_getLists : keeps_client getLists.
Proof. unfold getLists, client_getLists; keeps_tac. Qed.

Ltac keeps_step :=
  let k := fresh "k" in
  apply post_bind with (Q := fun w => w_client w = true);
  [ apply post_keeps;
    first [ apply keeps_getListByName | apply keeps_getLists | apply keeps_addItem
          | apply keeps_checkItem | apply keeps_uncheckItem | apply keeps_removeItem
          | apply keeps_clearChecked | apply keeps_read_list ]
  | ].

(** X2: whenever an authenticated command's action ends normally (exit
    code 0), it has torn the client down: [teardown] ran on the live
    session handle, which is left cleared. *)
Theorem X2_dispatch_success_tears_down (toLowerCase : jsstr -> jsstr) (homedir : string)
    (c : Cmd) (w w' : World)
    (Hrun : dispatch toLowerCase homedir c w = (Ret tt, w')) :
  w_client w' = false /\ In EvTeardown (w_trace w').
Proof.
  enough (H : post_ret (fun _ => True) torn_down (dispatch toLowerCase homedir c))
    by exact (H w tt w' I Hrun).
  destruct c; simpl;
    unfold cmd_lists, cmd_items, cmd_add, cmd_check, cmd_uncheck, cmd_remove, cmd_clear;
    apply post_try_catch_exit;
    (apply post_bind with (Q := fun w => w_client w = true);
     [apply post_getAuthenticatedClient|]);
    intros ?; keeps_step;
    [ post_tail | ..];
    intros [l|];
    try (apply post_bind with (Q := torn_down); [apply post_teardown | intros ?; apply post_exit]).
  - apply post_bind with (Q := fun w => w_client w = true);
      [apply post_keeps, keeps_read_list|].
    intros ?; cbv zeta; post_tail.
  - apply post_bind with (Q := fun w => w_client w = true); [apply post_add_category|].
    intros ?; keeps_step; post_tail.
  - keeps_step; post_tail.
  - keeps_step; post_tail.
  - keeps_step; post_tail.
  - keeps_step; post_tail.
Qed.

(** Witness: [check Shopping Milk] in the demo session. *)
Lemma X2_dispatch_success_tears_down_witness :
  w_client (snd (dispatch toLowerCase_sample "/home/u" (CCheck (js "Shopping") (js "Milk")) demo_world))
    = false /\
  In EvTeardown
    (w_trace (snd (dispatch toLowerCase_sample "/home/u" (CCheck (js "Shopping") (js "Milk")) demo_world))).
Proof.
  apply (X2_dispatch_success_tears_down toLowerCase_sample "/home/u"
           (CCheck (js "Shopping") (js "Milk")) demo_world).
  vm_compute; reflexivity.
Defined.

(** ** List and item views *)

Lemma length_filter_split {A} (p : A -> bool) (l : list A) :
  (List.length (filter p l) + List.length (filter (fun x => negb (p x)) l))%nat = List.length l.
Proof. induction l as [|a l IH]; simpl; [reflexivity|]; destruct (p a); simpl; lia. Qed.

Lemma remote_ok (e : Event) (w : World) :
  hd false (w_net w) = false ->
  remote e w = (Ret tt, push_event e (set_net (tl (w_net w)) w)).
Proof.
  unfold remote; destruct (w_net w) as [|[] rest] eqn:E; simpl; intros H; try discriminate.
  - f_equal; destruct w; simpl in *; subst; reflexivity.
  - reflexivity.
Qed.



Lemma list_state_In (w : World) (lst : AnyListList) :
  (exists l, In l (w_lists w) /\ l_ref l = l_ref lst) -> In (list_state w lst) (w_lists w).
Proof.
  intros (l & Hl & Hr); unfold list_state.
  destruct (find (fun l0 => Nat.eqb (l_ref l0) (l_ref lst)) (w_lists w)) eqn:E.
  - apply find_some in E as [H _]; exact H.
  - pose proof (find_none _ _ E l Hl) as H; simpl in H; rewrite Hr, Nat.eqb_refl in H;
      discriminate.
Qed.

(** X4: [lists] and [clear] agree: for a list of the session whose item
    objects have distinct identities, when [clearChecked] completes it
    returns the [checkedCount] that [getLists] reports for that list, and
    afterwards the list reports no checked item and [itemCount] lowered by
    that number. *)
Theorem X4_clear_matches_checkedCount (lst : AnyListList) (w w' : World) (n : nat)
    (Hin : exists l, In l (w_lists w) /\ l_ref l = l_ref lst)
    (Hid : forall a b, In a (l_items (list_state w lst)) -> In b (l_items (list_state w lst)) ->
                       i_ref a = i_ref b -> a = b)
    (Hrun : clearChecked lst w = (Ret n, w')) :
  In (list_info (list_state w lst)) (map list_info (w_lists w)) /\
  n = li_checkedCount (list_info (list_state w lst)) /\
  li_checkedCount (list_info (list_state w' lst)) = 0%nat /\
  li_itemCount (list_info (list_state w' lst)) =
    (li_itemCount (list_info (list_state w lst)) - n)%nat.
Proof.
  split; [apply in_map, list_state_In, Hin|].
  unfold clearChecked, bind, read_list, gets in Hrun.
  destruct (remove_each_spec lst _ 0 n w w' Hin Hrun) as [Hn Hitems].
  rewrite removed_all_checked in Hitems by exact Hid.
  unfold list_info; simpl; rewrite Hitems.
  pose proof (length_filter_split i_checked (l_items (list_state w lst))) as Hs.
  split; [simpl in Hn; exact Hn|]. split.
  - clear; induction (l_items (list_state w lst)) as [|a l IH]; simpl; [reflexivity|].
    destruct (i_checked a) eqn:E; simpl; rewrite ?E; exact IH.
  - simpl in Hn; lia.
Qed.

(** Witness: [Shopping] reports two checked items, the two [clear]
    removes. *)
Lemma X4_clear_matches_checkedCount_witness :
  li_checkedCount (list_info (list_state demo_world shop_list)) = 2%nat /\
  fst (clearChecked shop_list demo_world) = Ret 2%nat /\
  li_checkedCount (list_info (list_state (snd (clearChecked shop_list demo_world)) shop_list)) = 0%nat.
Proof.
  assert (Hin : exists l, In l (w_lists demo_world) /\ l_ref l = l_ref shop_list)
    by (exists shop_list; split; [right; left; reflexivity | reflexivity]).
  assert (Hid : forall a b, In a (l_items (list_state demo_world shop_list)) ->
                            In b (l_items (list_state demo_world shop_list)) ->
                            i_ref a = i_ref b -> a = b).
  { vm_compute; intros a b Ha Hb Hr.
    destruct Ha as [<-|[<-|[<-|[]]]]; destruct Hb as [<-|[<-|[<-|[]]]];
      vm_compute in Hr; first [reflexivity | discriminate]. }
  destruct (X4_clear_matches_checkedCount shop_list demo_world
              (snd (clearChecked shop_list demo_world)) 2 Hin Hid) as [_ [Hn [H0 _]]].
  - vm_compute; reflexivity.
  - split; [symmetry; exact Hn|]. split; [vm_compute; reflexivity | exact H0].
Defined.


(** ** The item helpers of the client wrapper *)

Lemma find_map_in {A} (p : A -> bool) (f : A -> A) (l : list A) :
  (forall x, In x l -> p (f x) = p x) -> find p (map f l) = option_map f (find p l).
Proof.
  induction l as [|a l IH]; intros H; simpl; [reflexivity|].
  rewrite (H a (or_introl eq_refl)).
  destruct (p a); [reflexivity|]. apply IH; intros x Hx; apply H; right; exact Hx.
Qed.

Lemma findItemByName_map (tl : jsstr -> jsstr) (l : AnyListList) (f : Item -> Item) (name : jsstr) :
  (forall x, In x (l_items l) -> i_name (f x) = i_name x) ->
  findItemByName tl (mkList (l_ref l) (l_name l) (l_identifier l) (map f (l_items l))) name =
  option_map f (findItemByName tl l name).
Proof.
  intros H; unfold findItemByName, getItemByName; simpl.
  rewrite (find_map_in _ f) by (intros x Hx; rewrite H by exact Hx; reflexivity).
  destruct (find (fun i => jsstr_eqb (i_name i) name) (l_items l)); [reflexivity|]; simpl.
  apply find_map_in; intros x Hx; rewrite H by exact Hx; reflexivity.
Qed.

Lemma findItemByName_In (tl : jsstr -> jsstr) (l : AnyListList) (name : jsstr) (it : Item) :
  findItemByName tl l name = Some it -> In it (l_items l).
Proof.
  unfold findItemByName, getItemByName.
  destruct (find _ (l_items l)) eqn:E.
  - intros H; injection H; intros <-; apply find_some in E as [H1 _]; exact H1.
  - intros H; apply find_some in H as [H1 _]; exact H1.
Qed.

Lemma map_list_net lr f w : w_net (map_list lr f w) = w_net w.
Proof. reflexivity. Qed.

Lemma list_state_keep (w : World) (lst : AnyListList) (f : World -> World) :
  w_lists (f w) = w_lists w -> list_state (f w) lst = list_state w lst.
Proof. intros H; unfold list_state; rewrite H; reflexivity. Qed.

Lemma lookup_stable (toLowerCase : jsstr -> jsstr) (l : AnyListList)
    (name : jsstr) (it it' : Item)
    (Hid : forall a b, In a (l_items l) -> In b (l_items l) -> i_ref a = i_ref b -> a = b)
    (Hf : findItemByName toLowerCase l name = Some it)
    (Hname : i_name it' = i_name it) :
  findItemByName toLowerCase
    (mkList (l_ref l) (l_name l) (l_identifier l) (map (write_back it it') (l_items l))) name =
  Some it'.
Proof.
  rewrite findItemByName_map, Hf; simpl.
  - unfold write_back; rewrite Nat.eqb_refl; reflexivity.
  - intros x Hx; unfold write_back.
    destruct (Nat.eqb (i_ref x) (i_ref it)) eqn:E; [|reflexivity].
    apply Nat.eqb_eq in E.
    rewrite (Hid x it Hx (findItemByName_In _ _ _ _ Hf) E); exact Hname.
Qed.


(** X6: once [findItemByName] has found an item of a list whose item
    objects have distinct identities, writing a new version of that object
    back with the same name (as [checkItem], [uncheckItem],
    [updateItemDetails] and [addItem] do) leaves the lookup stable: the
    same query then finds the new version of that same object. *)
Theorem X6_lookup_stable_after_write (toLowerCase : jsstr -> jsstr) (l : AnyListList)
    (name : jsstr) (it it' : Item)
    (Hid : forall a b, In a (l_items l) -> In b (l_items l) -> i_ref a = i_ref b -> a = b)
    (Hf : findItemByName toLowerCase l name = Some it)
    (Hname : i_name it' = i_name it) :
  findItemByName toLowerCase
    (mkList (l_ref l) (l_name l) (l_identifier l) (map (write_back it it') (l_items l))) name =
  Some it'.
Proof. exact (lookup_stable toLowerCase l name it it' Hid Hf Hname). Qed.

(** Witness: [milk] of [Shopping], found by [MILK], then checked. *)
Lemma X6_lookup_stable_after_write_witness :
  findItemByName toLowerCase_sample
    (mkList 2 (js "Shopping") (js "l2") (map (write_back milk (set_checked true milk)) [milk; eggs; bread]))
    (js "MILK") = Some (set_checked true milk).
Proof.
  apply (X6_lookup_stable_after_write toLowerCase_sample shop_list (js "MILK") milk
           (set_checked true milk)).
  - vm_compute; intros a b Ha Hb Hr.
    destruct Ha as [<-|[<-|[<-|[]]]]; destruct Hb as [<-|[<-|[<-|[]]]];
      vm_compute in Hr; first [reflexivity | discriminate].
  - vm_compute; reflexivity.
  - reflexivity.
Defined.

Lemma list_state_map_list_full (w : World) (lst : AnyListList) (f : list Item -> list Item) :
  (exists l, In l (w_lists w) /\ l_ref l = l_ref lst) ->
  list_state (map_list (l_ref lst) f w) lst =
    mkList (l_ref (list_state w lst)) (l_name (list_state w lst))
           (l_identifier (list_state w lst)) (f (l_items (list_state w lst))).
Proof.
  unfold list_state, map_list, set_lists; simpl.
  induction (w_lists w) as [|l ls IH]; simpl; intros (l0 & Hin & Hr); [contradiction|].
  destruct (Nat.eqb (l_ref l) (l_ref lst)) eqn:E; simpl.
  - rewrite E; reflexivity.
  - rewrite E.
    destruct Hin as [<-|Hin]; [rewrite Hr, Nat.eqb_refl in E; discriminate|].
    exact (IH (ex_intro _ l0 (conj Hin Hr))).
Qed.

(** The write-back of [it'] followed by [it'.save()], as [checkItem],
    [uncheckItem] and [updateItemDetails] end. *)
Lemma write_then_save (lst : AnyListList) (it it' : Item) {A} (v : A) (w : World)
    (Hin : exists l, In l (w_lists w) /\ l_ref l = l_ref lst)
    (Hr : i_ref it' = i_ref it) :
  let r := (write_item (l_ref lst) it';; item_save it';; ret v) w in
  fst r = (if hd false (w_net w) then Throw else Ret v) /\
  list_state (snd r) lst = written (list_state w lst) it it' /\
  w_trace (snd r) = (if hd false (w_net w) then w_trace w else EvSave (i_ref it) :: w_trace w) /\
  w_net (snd r) = tl (w_net w) /\
  (exists l, In l (w_lists (snd r)) /\ l_ref l = l_ref lst).
Proof.
  cbv zeta.
  pose proof (list_state_map_list_full w lst (map (write_back it it')) Hin) as Hs.
  destruct (list_state_map_list w lst (map (write_back it it')) Hin) as [_ Hin'].
  unfold write_item, item_save, bind, modify.
  replace (fun i => if Nat.eqb (i_ref i) (i_ref it') then it' else i) with (write_back it it')
    by (unfold write_back; rewrite Hr; reflexivity).
  unfold remote; rewrite map_list_net, Hr.
  destruct (w_net w) as [|[] rest] eqn:En; simpl; (split; [reflexivity|]);
    rewrite list_state_keep by reflexivity; (split; [exact Hs|]);
    repeat split; try reflexivity; try exact Hin'; exact En.
Qed.

Lemma checkItem_found (toLowerCase : jsstr -> jsstr) (lst : AnyListList) (w : World)
    (name : jsstr) (it : Item) :
  findItemByName toLowerCase (list_state w lst) name = Some it ->
  checkItem toLowerCase lst name w =
    (write_item (l_ref lst) (set_checked true it);; item_save (set_checked true it);;
     ret (Some (item_info (set_checked true it)))) w /\
  uncheckItem toLowerCase lst name w =
    (write_item (l_ref lst) (set_checked false it);; item_save (set_checked false it);;
     ret (Some (item_info (set_checked false it)))) w.
Proof.
  intros Hf; split;
    [unfold checkItem | unfold uncheckItem]; unfold read_list, gets, bind at 1; rewrite Hf;
    reflexivity.
Qed.

(** X7: when [findItemByName] finds [it] in a list of the session,
    [checkItem] (resp. [uncheckItem]) writes [it] back with [checked] set to
    [true] (resp. [false]) and every other item untouched, then saves it:
    it returns the item's info when the save succeeds and rejects
    otherwise; the flag is set in memory in both cases, and the save is
    the only remote call. *)
Theorem X7_check_uncheck_effect (toLowerCase : jsstr -> jsstr) (lst : AnyListList) (w : World)
    (name : jsstr) (it : Item)
    (Hin : exists l, In l (w_lists w) /\ l_ref l = l_ref lst)
    (Hf : findItemByName toLowerCase (list_state w lst) name = Some it) :
  (fst (checkItem toLowerCase lst name w) =
     (if hd false (w_net w) then Throw else Ret (Some (item_info (set_checked true it)))) /\
   l_items (list_state (snd (checkItem toLowerCase lst name w)) lst) =
     map (write_back it (set_checked true it)) (l_items (list_state w lst)) /\
   w_trace (snd (checkItem toLowerCase lst name w)) =
     (if hd false (w_net w) then w_trace w else EvSave (i_ref it) :: w_trace w)) /\
  (fst (uncheckItem toLowerCase lst name w) =
     (if hd false (w_net w) then Throw else Ret (Some (item_info (set_checked false it)))) /\
   l_items (list_state (snd (uncheckItem toLowerCase lst name w)) lst) =
     map (write_back it (set_checked false it)) (l_items (list_state w lst)) /\
   w_trace (snd (uncheckItem toLowerCase lst name w)) =
     (if hd false (w_net w) then w_trace w else EvSave (i_ref it) :: w_trace w)).
Proof.
  destruct (checkItem_found toLowerCase lst w name it Hf) as [Hc Hu].
  rewrite Hc, Hu.
  destruct (write_then_save lst it (set_checked true it) (Some (item_info (set_checked true it)))
              w Hin eq_refl) as (H1 & H2 & H3 & _).
  destruct (write_then_save lst it (set_checked false it) (Some (item_info (set_checked false it)))
              w Hin eq_refl) as (H4 & H5 & H6 & _).
  rewrite H2, H5; split; auto.
Qed.

(** Witness: checking [milk] of [Shopping] in the demo session. *)
Lemma X7_check_uncheck_effect_witness :
  fst (checkItem toLowerCase_sample shop_list (js "milk") demo_world) =
    Ret (Some (item_info (set_checked true milk))).
Proof.
  refine (proj1 (proj1 (X7_check_uncheck_effect toLowerCase_sample shop_list demo_world
                            (js "milk") milk _ _))).
  - exists shop_list; split; [right; left; reflexivity | reflexivity].
  - vm_compute; reflexivity.
Defined.

Lemma write_back_twice (it it1 it2 : Item) (i : Item) :
  i_ref it1 = i_ref it -> write_back it1 it2 (write_back it it1 i) = write_back it it2 i.
Proof.
  intros Hr; unfold write_back.
  destruct (Nat.eqb (i_ref i) (i_ref it)) eqn:E; [rewrite Hr, Nat.eqb_refl; reflexivity|].
  rewrite Hr, E; reflexivity.
Qed.

(** X8: checking then unchecking the same name targets the same item
    object: in a list of the session whose item objects have distinct
    identities, when the first save succeeds, [checkItem] followed by
    [uncheckItem] leaves the found item unchecked (its other fields as
    they were) and every other item untouched, and returns its info unless
    the second save rejects. *)
Theorem X8_check_then_uncheck (toLowerCase : jsstr -> jsstr) (lst : AnyListList) (w : World)
    (name : jsstr) (it : Item)
    (Hin : exists l, In l (w_lists w) /\ l_ref l = l_ref lst)
    (Hid : forall a b, In a (l_items (list_state w lst)) -> In b (l_items (list_state w lst)) ->
                       i_ref a = i_ref b -> a = b)
    (Hf : findItemByName toLowerCase (list_state w lst) name = Some it)
    (Hnet : hd false (w_net w) = false) :
  let r := (checkItem toLowerCase lst name;; uncheckItem toLowerCase lst name) w in
  fst r = (if hd false (tl (w_net w)) then Throw
           else Ret (Some (item_info (set_checked false it)))) /\
  l_items (list_state (snd r) lst) =
    map (write_back it (set_checked false it)) (l_items (list_state w lst)).
Proof.
  cbv zeta.
  destruct (checkItem_found toLowerCase lst w name it Hf) as [Hc _].
  destruct (write_then_save lst it (set_checked true it) (Some (item_info (set_checked true it)))
              w Hin eq_refl) as (H1 & H2 & _ & H4 & H5).
  cbv zeta in *.
  destruct ((write_item (l_ref lst) (set_checked true it);; item_save (set_checked true it);;
             ret (Some (item_info (set_checked true it)))) w) as [r1 w1] eqn:E1.
  simpl in H1, H2, H4, H5; rewrite Hnet in H1; subst r1.
  assert (Hf1 : findItemByName toLowerCase (list_state w1 lst) name = Some (set_checked true it))
    by (rewrite H2; apply lookup_stable; [exact Hid | exact Hf | reflexivity]).
  destruct (checkItem_found toLowerCase lst w1 name _ Hf1) as [_ Hu].
  assert (Hr : (checkItem toLowerCase lst name;; uncheckItem toLowerCase lst name) w =
               uncheckItem toLowerCase lst name w1)
    by (unfold bind at 1; rewrite Hc; reflexivity).
  rewrite Hr, Hu.
  destruct (write_then_save lst (set_checked true it) (set_checked false (set_checked true it))
              (Some (item_info (set_checked false (set_checked true it)))) w1 H5 eq_refl)
    as (H6 & H7 & _).
  cbv zeta in *; rewrite H4 in H6; rewrite H6, H7, H2; simpl; split; [reflexivity|].
  rewrite map_map; apply map_ext; intros i; apply write_back_twice; reflexivity.
Qed.

(** Witness: [check] then [uncheck] of [MILK] in [Shopping]. *)
Lemma X8_check_then_uncheck_witness :
  fst ((checkItem toLowerCase_sample shop_list (js "MILK");;
        uncheckItem toLowerCase_sample shop_list (js "MILK")) demo_world) =
    Ret (Some (item_info (set_checked false milk))).
Proof.
  assert (Hid : forall a b, In a (l_items (list_state demo_world shop_list)) ->
                            In b (l_items (list_state demo_world shop_list)) ->
                            i_ref a = i_ref b -> a = b).
  { vm_compute; intros a b Ha Hb Hr.
    destruct Ha as [<-|[<-|[<-|[]]]]; destruct Hb as [<-|[<-|[<-|[]]]];
      vm_compute in Hr; first [reflexivity | discriminate]. }
  refine (proj1 (X8_check_then_uncheck toLowerCase_sample shop_list demo_world (js "MILK") milk
                   _ Hid _ _)).
  - exists shop_list; split; [right; left; reflexivity | reflexivity].
  - vm_compute; reflexivity.
  - reflexivity.
Defined.

Lemma filter_remove_one (L : list Item) (it : Item) :
  NoDup (map i_ref L) -> In it L ->
  S (List.length (filter (fun i => negb (Nat.eqb (i_ref i) (i_ref it))) L)) = List.length L.
Proof.
  induction L as [|a L IH]; intros Hnd Hit; [contradiction|]; simpl.
  inversion Hnd as [|? ? Hna Hnd']; subst.
  destruct Hit as [->|Hit].
  - rewrite Nat.eqb_refl; simpl; f_equal.
    rewrite forallb_filter_id; [reflexivity|].
    apply forallb_forall; intros x Hx; apply negb_true_iff, Nat.eqb_neq; intros He.
    apply Hna; rewrite <- He; apply in_map; exact Hx.
  - destruct (Nat.eqb (i_ref a) (i_ref it)) eqn:E; simpl.
    + exfalso; apply Nat.eqb_eq in E; apply Hna; rewrite E; apply in_map; exact Hit.
    + rewrite IH; auto.
Qed.

(** X9: when [findItemByName] finds [it] in a list of the session whose
    item objects are distinct objects ([NoDup] references), [removeItem]
    posts the removal first: if that call rejects, it rejects and the list
    is unchanged; otherwise it returns [true] and the list keeps exactly
    its other items, in order, one fewer than before. *)
Theorem X9_removeItem_effect (toLowerCase : jsstr -> jsstr) (lst : AnyListList) (w : World)
    (name : jsstr) (it : Item)
    (Hin : exists l, In l (w_lists w) /\ l_ref l = l_ref lst)
    (Hnd : NoDup (map i_ref (l_items (list_state w lst))))
    (Hf : findItemByName toLowerCase (list_state w lst) name = Some it) :
  let r := removeItem toLowerCase lst name w in
  if hd false (w_net w) then
    fst r = Throw /\ l_items (list_state (snd r) lst) = l_items (list_state w lst)
  else
    fst r = Ret true /\
    l_items (list_state (snd r) lst) =
      filter (fun i => negb (Nat.eqb (i_ref i) (i_ref it))) (l_items (list_state w lst)) /\
    S (List.length (l_items (list_state (snd r) lst))) = List.length (l_items (list_state w lst)).
Proof.
  cbv zeta.
  assert (Hr : removeItem toLowerCase lst name w = (list_removeItem lst it;; ret true) w)
    by (unfold removeItem, read_list, gets, bind at 1; rewrite Hf; reflexivity).
  rewrite Hr; unfold list_removeItem, bind, modify.
  pose proof (filter_remove_one _ it Hnd (findItemByName_In _ _ _ _ Hf)) as Hlen.
  destruct (hd false (w_net w)) eqn:Ht.
  - unfold remote; destruct (w_net w) as [|[] rest]; simpl in Ht; try discriminate.
    split; reflexivity.
  - rewrite (remote_ok _ _ Ht).
    assert (Hin1 : exists l, In l (w_lists (push_event (EvListRemove (l_ref lst) (i_ref it))
                                              (set_net (tl (w_net w)) w))) /\
                             l_ref l = l_ref lst) by exact Hin.
    destruct (list_state_map_list _ lst (filter (fun i => negb (Nat.eqb (i_ref i) (i_ref it)))) Hin1)
      as [Hs _].
    simpl; rewrite Hs.
    change (list_state (push_event (EvListRemove (l_ref lst) (i_ref it)) (set_net (tl (w_net w)) w)) lst)
      with (list_state w lst).
    split; [reflexivity|]. split; [reflexivity | exact Hlen].
Qed.

(** Witness: removing [eggs] from [Shopping]. *)
Lemma X9_removeItem_effect_witness :
  fst (removeItem toLowerCase_sample shop_list (js "Eggs") demo_world) = Ret true /\
  List.length (l_items (list_state (snd (removeItem toLowerCase_sample shop_list (js "Eggs") demo_world))
                                   shop_list)) = 2%nat.
Proof.
  pose proof (X9_removeItem_effect toLowerCase_sample shop_list demo_world (js "Eggs") eggs
                (ex_intro _ shop_list (conj (or_intror (or_introl eq_refl)) eq_refl))
                ltac:(vm_compute; repeat constructor; simpl; intuition discriminate)
                ltac:(vm_compute; reflexivity)) as H.
  simpl in H; destruct H as (H1 & _ & H3).
  split; [exact H1 | vm_compute; reflexivity].
Defined.

(** X10: when [findItemByName] finds no item, [addItem] builds a new,
    unchecked item object with the requested name, the quantity only when
    it is non-empty, the details as given and the category only when it is
    truthy; it posts it to the list: if that call rejects, it rejects and
    the list is unchanged; otherwise the new item is appended after the
    list's existing items and its info is returned. *)
Theorem X10_addItem_new (toLowerCase : jsstr -> jsstr) (lst : AnyListList) (w : World)
    (name : jsstr) (quantity : option jsstr) (categoryMatchId : JSValue) (details : option jsstr)
    (Hin : exists l, In l (w_lists w) /\ l_ref l = l_ref lst)
    (Hf : findItemByName toLowerCase (list_state w lst) name = None) :
  let it0 := mkItem (w_next w) name (if opt_truthy quantity then quantity else None) false
                    [N.of_nat (w_next w)]
                    (if val_truthy categoryMatchId then categoryMatchId else JUndefined) details in
  let r := addItem toLowerCase lst name quantity categoryMatchId details w in
  if hd false (w_net w) then
    fst r = Throw /\ l_items (list_state (snd r) lst) = l_items (list_state w lst)
  else
    fst r = Ret (item_info it0) /\
    l_items (list_state (snd r) lst) = l_items (list_state w lst) ++ [it0] /\
    hd EvLogin (w_trace (snd r)) = EvListAdd (l_ref lst) (w_next w).
Proof.
  cbv zeta.
  assert (Hr : addItem toLowerCase lst name quantity categoryMatchId details w =
    (item <- createItem name (if opt_truthy quantity then quantity else None) details
                        (if val_truthy categoryMatchId then categoryMatchId else JUndefined);;
     added <- list_addItem lst item;;
     ret (item_info added)) w)
    by (unfold addItem, read_list, gets, bind at 1; rewrite Hf; reflexivity).
  rewrite Hr; unfold bind at 1 3, createItem; simpl.
  unfold list_addItem, bind, modify, ret.
  destruct (hd false (w_net w)) eqn:Ht.
  - unfold remote; simpl; destruct (w_net w) as [|[] rest]; simpl in Ht; try discriminate.
    split; reflexivity.
  - rewrite (remote_ok _ (set_next (S (w_next w)) w) Ht).
    assert (Hin1 : exists l, In l (w_lists (push_event (EvListAdd (l_ref lst) (w_next w))
                      (set_net (tl (w_net (set_next (S (w_next w)) w))) (set_next (S (w_next w)) w)))) /\
                             l_ref l = l_ref lst) by exact Hin.
    simpl; split; [reflexivity|].
    destruct (list_state_map_list _ lst (fun items => items ++
      [mkItem (w_next w) name (if opt_truthy quantity then quantity else None) false
              [N.of_nat (w_next w)]
              (if val_truthy categoryMatchId then categoryMatchId else JUndefined) details]) Hin1)
      as [Hs _].
    simpl in Hs; rewrite Hs; split; reflexivity.
Qed.

(** Witness: adding [Flour] to [Shopping]. *)
Lemma X10_addItem_new_witness :
  fst (addItem toLowerCase_sample shop_list (js "Flour") (Some (js "1")) JUndefined None demo_world) =
  Ret (item_info (mkItem 100 (js "Flour") (Some (js "1")) false [100] JUndefined None)).
Proof.
  exact (proj1 (X10_addItem_new toLowerCase_sample shop_list demo_world (js "Flour") (Some (js "1"))
                  JUndefined None
                  (ex_intro _ shop_list (conj (or_intror (or_introl eq_refl)) eq_refl))
                  ltac:(vm_compute; reflexivity))).
Defined.

(** X11: when [findItemByName] finds [it] in a list of the session,
    [updateItemDetails] writes [it] back with its details replaced (an
    empty string included) and every other field and item untouched, then
    saves it, returning the item's info when the save succeeds and
    rejecting otherwise; when nothing is found it returns [null] and
    changes nothing. *)
Theorem X11_updateItemDetails_effect (toLowerCase : jsstr -> jsstr) (lst : AnyListList)
    (w : World) (name details : jsstr)
    (Hin : exists l, In l (w_lists w) /\ l_ref l = l_ref lst) :
  match findItemByName toLowerCase (list_state w lst) name with
  | Some it =>
      fst (updateItemDetails toLowerCase lst name details w) =
        (if hd false (w_net w) then Throw
         else Ret (Some (item_info (set_details (Some details) it)))) /\
      list_state (snd (updateItemDetails toLowerCase lst name details w)) lst =
        written (list_state w lst) it (set_details (Some details) it)
  | None => updateItemDetails toLowerCase lst name details w = (Ret None, w)
  end.
Proof.
  destruct (findItemByName toLowerCase (list_state w lst) name) as [it|] eqn:Hf.
  - assert (Hr : updateItemDetails toLowerCase lst name details w =
      (write_item (l_ref lst) (set_details (Some details) it);;
       item_save (set_details (Some details) it);;
       ret (Some (item_info (set_details (Some details) it)))) w)
      by (unfold updateItemDetails, read_list, gets, bind at 1; rewrite Hf; reflexivity).
    rewrite Hr.
    destruct (write_then_save lst it (set_details (Some details) it)
                (Some (item_info (set_details (Some details) it))) w Hin eq_refl) as (H1 & H2 & _).
    split; [exact H1 | exact H2].
  - unfold updateItemDetails, read_list, gets, bind; rewrite Hf; reflexivity.
Qed.

(** Witness: new details for [Milk] of [Shopping]. *)
Lemma X11_updateItemDetails_effect_witness :
  fst (updateItemDetails toLowerCase_sample shop_list (js "milk") (js "oat") demo_world) =
    Ret (Some (item_info (set_details (Some (js "oat")) milk))).
Proof.
  pose proof (X11_updateItemDetails_effect toLowerCase_sample shop_list demo_world (js "milk")
                (js "oat") (ex_intro _ shop_list (conj (or_intror (or_introl eq_refl)) eq_refl))) as H.
  vm_compute in H; vm_compute; apply H.
Defined.

(** ** The config file *)

Lemma str_length_append (s t : string) : String.length (s ++ t) = (String.length s + String.length t)%nat.
Proof. induction s as [|a s IH]; simpl; [reflexivity | rewrite IH; reflexivity]. Qed.

Lemma config_paths_distinct (homedir : string) :
  let ps := [homedir; CONFIG_PARENT homedir; CONFIG_DIR homedir; CONFIG_FILE homedir;
             ANYLIST_CREDS homedir] in
  forall i j, (i < 5)%nat -> (j < 5)%nat -> i <> j -> nth i ps EmptyString <> nth j ps EmptyString.
Proof.
  cbv zeta; intros i j Hi Hj Hij H; apply (f_equal String.length) in H.
  unfold CONFIG_FILE, CONFIG_DIR, CONFIG_PARENT, ANYLIST_CREDS in H.
  destruct i as [|[|[|[|[|i]]]]]; try lia; destruct j as [|[|[|[|[|j]]]]]; try lia;
    simpl nth in H; rewrite ?str_length_append in H; simpl in H; lia.
Qed.

Ltac path_neq homedir i j :=
  exact (config_paths_distinct homedir i j ltac:(lia) ltac:(lia) ltac:(lia)).






Lemma unlinkSync_spec (fs fs1 : FS) (p : string) :
  unlinkSync fs p = Some fs1 ->
  fs_node fs1 p = None /\ (forall q, q <> p -> fs_node fs1 q = fs_node fs q) /\
  fs_umask fs1 = fs_umask fs.
Proof.
  unfold unlinkSync; destruct (fs_node fs p) as [[|]|]; intros H; try discriminate.
  injection H; intros <-; simpl; rewrite String.eqb_refl; split; [reflexivity|].
  split; [intros q Hq; apply String.eqb_neq in Hq; rewrite Hq; reflexivity | reflexivity].
Qed.

Lemma clearConfig_spec (homedir : string) (fs fs' : FS) :
  clearConfig homedir fs = Some fs' ->
  fs_node fs' (CONFIG_FILE homedir) = None /\ fs_node fs' (ANYLIST_CREDS homedir) = None /\
  (forall q, q <> CONFIG_FILE homedir -> q <> ANYLIST_CREDS homedir ->
             fs_node fs' q = fs_node fs q) /\
  fs_umask fs' = fs_umask fs.
Proof.
  assert (Hfc : ANYLIST_CREDS homedir <> CONFIG_FILE homedir) by path_neq homedir 4%nat 3%nat.
  unfold clearConfig; intros H.
  assert (H1 : exists fs1, fs_node fs1 (CONFIG_FILE homedir) = None /\
            (forall q, q <> CONFIG_FILE homedir -> fs_node fs1 q = fs_node fs q) /\
            fs_umask fs1 = fs_umask fs /\
            (if existsSync fs1 (ANYLIST_CREDS homedir) then unlinkSync fs1 (ANYLIST_CREDS homedir)
             else Some fs1) = Some fs').
  { destruct (existsSync fs (CONFIG_FILE homedir)) eqn:E.
    - destruct (unlinkSync fs (CONFIG_FILE homedir)) as [fs1|] eqn:U; [|discriminate].
      destruct (unlinkSync_spec _ _ _ U) as (A & B & C); exists fs1; auto.
    - exists fs; simpl in H; split; [|split; [reflexivity | split; [reflexivity | exact H]]].
      unfold existsSync in E; destruct (fs_node fs (CONFIG_FILE homedir)); congruence. }
  destruct H1 as (fs1 & A1 & B1 & C1 & D1).
  destruct (existsSync fs1 (ANYLIST_CREDS homedir)) eqn:E.
  - destruct (unlinkSync_spec _ _ _ D1) as (A & B & C).
    split; [rewrite B; auto|]. split; [exact A|].
    split; [intros q Hq1 Hq2; rewrite B, B1; auto | congruence].
  - injection D1; intros <-. split; [exact A1|].
    split; [unfold existsSync in E; destruct (fs_node fs1 (ANYLIST_CREDS homedir)); congruence|].
    split; [intros q Hq1 Hq2; apply B1; exact Hq1 | exact C1].
Qed.

(** X13: when [clearConfig] completes, the config file and
    [~/.anylist_credentials] are both gone, and no other path (in
    particular not the config directory) has changed. *)
Theorem X13_clearConfig_effect (homedir : string) (fs fs' : FS)
    (Hclear : clearConfig homedir fs = Some fs') :
  fs_node fs' (CONFIG_FILE homedir) = None /\ fs_node fs' (ANYLIST_CREDS homedir) = None /\
  loadConfig homedir fs' = None /\
  (forall q, q <> CONFIG_FILE homedir -> q <> ANYLIST_CREDS homedir ->
             fs_node fs' q = fs_node fs q).
Proof.
  destruct (clearConfig_spec _ _ _ Hclear) as (A & B & C & _).
  split; [exact A|]. split; [exact B|]. split; [|exact C].
  unfold loadConfig, existsSync; rewrite A; reflexivity.
Qed.

(** Witness: clearing the stale config file of [fs_stale]. *)
Lemma X13_clearConfig_effect_witness :
  exists fs', clearConfig "/home/u" fs_stale = Some fs' /\
    loadConfig "/home/u" fs' = None.
Proof.
  eexists; split; [vm_compute; reflexivity|].
  exact (proj1 (proj2 (proj2 (X13_clearConfig_effect "/home/u" fs_stale _
                                 ltac:(vm_compute; reflexivity))))).
Defined.


(** X15: [logout] followed by a command's [requireConfig], with no
    [ANYLIST_EMAIL] in the environment: the command exits with code [3]
    whenever the logout completed (and the logout itself throws otherwise). *)
Theorem X15_logout_then_requireConfig (homedir : string) (w : World)
    (Henv : w_env_email w = None) :
  fst ((cmd_logout homedir;; requireConfig homedir) w) =
  match clearConfig homedir (w_fs w) with
  | Some _ => Exit AuthFailure
  | None => Throw
  end.
Proof.
  unfold cmd_logout, fs_op, bind at 1.
  destruct (clearConfig homedir (w_fs w)) as [fs'|] eqn:E; [|reflexivity].
  destruct (clearConfig_spec _ _ _ E) as (A & _).
  unfold requireConfig, loadConfigFromEnv, loadConfigM, bind, gets; simpl.
  rewrite Henv; simpl. unfold loadConfig, existsSync; rewrite A; reflexivity.
Qed.

(** Witness: logging out of a process with no credentials in the
    environment and the stale config file of [fs_stale]. *)
Lemma X15_logout_then_requireConfig_witness :
  fst ((cmd_logout "/home/u";; requireConfig "/home/u")
         (mkWorld None None fs_stale [] [] false 0 [])) = Exit AuthFailure.
Proof.
  rewrite (X15_logout_then_requireConfig "/home/u" (mkWorld None None fs_stale [] [] false 0 [])
             eq_refl).
  vm_compute; reflexivity.
Defined.

Lemma requireConfig_env (homedir : string) (w : World) (e p : jsstr) :
  w_env_email w = Some e -> w_env_password w = Some p ->
  str_truthy e && str_truthy p = true ->
  requireConfig homedir w = (Ret (mkConfig e p), w).
Proof.
  intros He Hp Ht; unfold requireConfig, loadConfigFromEnv, bind, gets, ret.
  rewrite He, Hp, Ht; reflexivity.
Qed.

(** X16: with truthy [ANYLIST_EMAIL] and [ANYLIST_PASSWORD] in the
    environment and no config file, every command's [requireConfig] uses
    the environment's credentials without touching the files, while
    [whoami --json] reports [{"authenticated":false}]: [whoami] reads only
    the config file. *)
Theorem X16_env_credentials_whoami (homedir : string) (w : World) (e p : jsstr)
    (He : w_env_email w = Some e) (Hp : w_env_password w = Some p)
    (Ht : str_truthy e && str_truthy p = true)
    (Hnofile : existsSync (w_fs w) (CONFIG_FILE homedir) = false) :
  requireConfig homedir w = (Ret (mkConfig e p), w) /\
  whoami_json homedir (w_fs w) = whoami_not_authenticated.
Proof.
  split; [apply requireConfig_env; assumption|].
  unfold whoami_json, loadConfig; rewrite Hnofile; reflexivity.
Qed.

(** Witness: [demo_world] has credentials in the environment and an empty
    home directory. *)
Lemma X16_env_credentials_whoami_witness :
  requireConfig "/home/u" demo_world = (Ret (mkConfig (js "me@example.com") (js "secret")), demo_world) /\
  whoami_json "/home/u" (w_fs demo_world) = whoami_not_authenticated.
Proof.
  exact (X16_env_credentials_whoami "/home/u" demo_world (js "me@example.com") (js "secret")
           eq_refl eq_refl eq_refl ltac:(vm_compute; reflexivity)).
Defined.

(** X17: after [saveConfig] completes, [whoami --json] prints
    [{"authenticated": true, "email": ...}] with the saved email, escaped
    as [JSON.stringify] escapes it. *)
Theorem X17_save_then_whoami (homedir : string) (config : AnyListConfig) (fs fs' : FS)
    (Hsave : saveConfig homedir config fs = Some fs') :
  whoami_json homedir fs' =
    [123; 10; 32; 32; 34] ++ js "authenticated" ++ [34; 58; 32] ++ js "true" ++
    [44; 10; 32; 32; 34] ++ js "email" ++ [34; 58; 32; 34] ++ json_escape (email config) ++
    [34; 10; 125].
Proof.
  unfold saveConfig in Hsave.
  destruct (if existsSync fs (CONFIG_DIR homedir) then Some fs else mkdirSync_recursive homedir fs)
    as [fs1|]; [|discriminate]; simpl in Hsave.
  destruct (writeFileSync_content _ _ _ _ _ _ Hsave) as [m Hm].
  unfold whoami_json, loadConfig, existsSync; rewrite Hm; simpl.
  rewrite stringify_config_parse; reflexivity.
Qed.

(** Witness: saving into [fs_home]. *)
Lemma X17_save_then_whoami_witness :
  exists fs', saveConfig "/home/u" (mkConfig (js "me@example.com") (js "secret")) fs_home = Some fs' /\
    whoami_json "/home/u" fs' =
    [123; 10; 32; 32; 34] ++ js "authenticated" ++ [34; 58; 32] ++ js "true" ++
    [44; 10; 32; 32; 34] ++ js "email" ++ [34; 58; 32; 34] ++ json_escape (js "me@example.com") ++
    [34; 10; 125].
Proof.
  eexists; split; [vm_compute; reflexivity|].
  exact (X17_save_then_whoami "/home/u" (mkConfig (js "me@example.com") (js "secret")) fs_home _
           ltac:(vm_compute; reflexivity)).
Defined.



Lemma cmd_auth_verified (homedir : string) (e p : jsstr) (w : World) :
  str_truthy e = true -> str_truthy p = true ->
  hd false (w_net w) = false -> hd false (tl (w_net w)) = false ->
  cmd_auth homedir true e p w =
  match saveConfig homedir (mkConfig e p) (w_fs w) with
  | Some fs' =>
      (Ret tt, mkWorld (w_env_email w) (w_env_password w) fs' (tl (tl (w_net w))) (w_lists w)
                       false (w_next w) (EvTeardown :: EvGetLists :: EvLogin :: w_trace w))
  | None =>
      (Exit AuthFailure,
       mkWorld (w_env_email w) (w_env_password w) (w_fs w) (tl (tl (w_net w))) (w_lists w)
               false (w_next w) (EvTeardown :: EvGetLists :: EvLogin :: w_trace w))
  end.
Proof.
  intros He Hp.
  destruct w as [ee ep fs net ls cl nx tr]; simpl.
  unfold cmd_auth; rewrite He, Hp; simpl negb; cbv beta iota.
  destruct net as [|[] [|[] rest]]; simpl; intros H1 H2; try discriminate;
    unfold try_catch, bind, getClient, getLists_info, getLists, client_getLists, remote,
      modify, gets, ret, teardown, fs_op, set_fs, set_client, set_net, push_event; simpl;
    destruct (saveConfig homedir (mkConfig e p) fs); reflexivity.
Qed.

(** X19: [auth] without a TTY, or with an empty email or password
    answer, exits with code [2] and has changed nothing: no login, no
    file written. *)
Theorem X19_auth_invalid_usage (homedir : string) (isTTY : bool) (e p : jsstr) (w : World)
    (Hbad : isTTY = false \/ e = [] \/ p = []) :
  cmd_auth homedir isTTY e p w = (Exit InvalidUsage, w).
Proof.
  unfold cmd_auth.
  destruct isTTY; [|reflexivity]; simpl.
  unfold try_catch.
  destruct Hbad as [H|[H|H]]; [discriminate| |]; subst; simpl;
    [reflexivity | rewrite orb_true_r; reflexivity].
Qed.

(** Witness: an empty password answer at a TTY. *)
Lemma X19_auth_invalid_usage_witness :
  cmd_auth "/home/u" true (js "me@example.com") [] demo_world = (Exit InvalidUsage, demo_world).
Proof.
  exact (X19_auth_invalid_usage "/home/u" true (js "me@example.com") [] demo_world
           (or_intror (or_intror eq_refl))).
Defined.

(** X20: when the login or the [getLists] call of [auth] rejects, [auth]
    exits with code [3] and the files are as they were: the credentials are
    saved only once both calls succeeded. *)
Theorem X20_auth_rejected (homedir : string) (e p : jsstr) (w : World)
    (He : str_truthy e = true) (Hp : str_truthy p = true)
    (Hrej : hd false (w_net w) = true \/ hd false (tl (w_net w)) = true) :
  fst (cmd_auth homedir true e p w) = Exit AuthFailure /\
  w_fs (snd (cmd_auth homedir true e p w)) = w_fs w.
Proof.
  destruct w as [ee ep fs net ls cl nx tr]; simpl in *.
  unfold cmd_auth; rewrite He, Hp; simpl negb; cbv beta iota.
  destruct net as [|[] [|[] rest]]; simpl in Hrej; destruct Hrej as [H|H]; try discriminate;
    unfold try_catch, bind, getClient, getLists_info, getLists, client_getLists, remote,
      modify, gets, ret, exit, set_client, set_net, push_event; simpl; split; reflexivity.
Qed.

(** Witness: the login of [demo_world] with the service rejecting it. *)
Lemma X20_auth_rejected_witness :
  fst (cmd_auth "/home/u" true (js "me@example.com") (js "secret") (set_net [true] demo_world))
    = Exit AuthFailure.
Proof.
  exact (proj1 (X20_auth_rejected "/home/u" (js "me@example.com") (js "secret")
                  (set_net [true] demo_world) eq_refl eq_refl (or_introl eq_refl))).
Defined.

(** X21: a completed [auth] has logged in, fetched the lists, torn the
    client down and saved the answers; afterwards a command run without
    [ANYLIST_EMAIL] in the environment gets exactly those credentials from
    [requireConfig]. *)
Theorem X21_auth_then_requireConfig (homedir : string) (e p : jsstr) (w w' : World)
    (He : str_truthy e = true) (Hp : str_truthy p = true)
    (Hrun : cmd_auth homedir true e p w = (Ret tt, w')) :
  w_client w' = false /\
  firstn 3 (w_trace w') = [EvTeardown; EvGetLists; EvLogin] /\
  forall w2, w_env_email w2 = None -> w_fs w2 = w_fs w' ->
    requireConfig homedir w2 =
      (Ret (mkConfig e p),
       push_event (EvFsRead (CONFIG_FILE homedir)) (push_event (EvFsExists (CONFIG_FILE homedir)) w2)).
Proof.
  assert (Hnet : hd false (w_net w) = false /\ hd false (tl (w_net w)) = false).
  { destruct w as [ee ep fs net ls cl nx tr]; simpl in *.
    revert Hrun; unfold cmd_auth; rewrite He, Hp; simpl negb; cbv beta iota.
    destruct net as [|[] [|[] rest]]; simpl;
      unfold try_catch, bind, getClient, getLists_info, getLists, client_getLists, remote,
        modify, gets, ret, exit, set_client, set_net, push_event; simpl; intros H;
      try discriminate; split; reflexivity. }
  destruct Hnet as [H1 H2].
  rewrite (cmd_auth_verified homedir e p w He Hp H1 H2) in Hrun.
  destruct (saveConfig homedir (mkConfig e p) (w_fs w)) as [fs'|] eqn:Es; [|discriminate].
  injection Hrun; intros <-.
  split; [reflexivity|]. split; [reflexivity|].
  intros w2 Henv Hfs; simpl in Hfs.
  unfold saveConfig in Es.
  destruct (if existsSync (w_fs w) (CONFIG_DIR homedir) then Some (w_fs w)
            else mkdirSync_recursive homedir (w_fs w)) as [fs1|]; [|discriminate]; simpl in Es.
  destruct (writeFileSync_content _ _ _ _ _ _ Es) as [m Hm].
  unfold requireConfig, loadConfigFromEnv, loadConfigM, bind, gets; rewrite Henv;
    cbv beta iota zeta.
  unfold loadConfig, existsSync; rewrite Hfs, Hm; cbv beta iota.
  rewrite stringify_config_parse; simpl; rewrite He, Hp; reflexivity.
Qed.

(** Witness: a successful [auth] in [demo_world]. *)
Lemma X21_auth_then_requireConfig_witness :
  exists w', cmd_auth "/home/u" true (js "me@example.com") (js "secret") demo_world = (Ret tt, w') /\
    w_client w' = false.
Proof.
  eexists; split; [vm_compute; reflexivity|].
  exact (proj1 (X21_auth_then_requireConfig "/home/u" (js "me@example.com") (js "secret")
                  demo_world _ eq_refl eq_refl ltac:(vm_compute; reflexivity))).
Defined.

(** X22: when saving the credentials throws after a successful login,
    [auth] exits with code [3] although it has already logged in and torn
    the client down; the files are as they were. *)
Theorem X22_auth_save_fails (homedir : string) (e p : jsstr) (w : World)
    (He : str_truthy e = true) (Hp : str_truthy p = true)
    (H1 : hd false (w_net w) = false) (H2 : hd false (tl (w_net w)) = false)
    (Hsave : saveConfig homedir (mkConfig e p) (w_fs w) = None) :
  fst (cmd_auth homedir true e p w) = Exit AuthFailure /\
  w_fs (snd (cmd_auth homedir true e p w)) = w_fs w /\
  w_client (snd (cmd_auth homedir true e p w)) = false /\
  firstn 3 (w_trace (snd (cmd_auth homedir true e p w))) = [EvTeardown; EvGetLists; EvLogin].
Proof.
  rewrite (cmd_auth_verified homedir e p w He Hp H1 H2), Hsave; simpl.
  repeat split; reflexivity.
Qed.

(** Witness: [auth] where [~/.config] is a regular file. *)
Lemma X22_auth_save_fails_witness :
  fst (cmd_auth "/home/u" true (js "me@example.com") (js "secret")
         (set_fs fs_config_blocked demo_world)) = Exit AuthFailure.
Proof.
  exact (proj1 (X22_auth_save_fails "/home/u" (js "me@example.com") (js "secret")
                  (set_fs fs_config_blocked demo_world) eq_refl eq_refl eq_refl eq_refl
                  ltac:(vm_compute; reflexivity))).
Defined.

Lemma not_control (c : jsstr) :
  ~ In c [[10]; [13]; [4]; [3]; [127]; [8]] ->
  jsstr_eqb c [10] = false /\ jsstr_eqb c [13] = false /\ jsstr_eqb c [4] = false /\
  jsstr_eqb c [3] = false /\ jsstr_eqb c [127] = false /\ jsstr_eqb c [8] = false.
Proof.
  intros H.
  assert (F : forall d, In d [[10]; [13]; [4]; [3]; [127]; [8]] -> jsstr_eqb c d = false).
  { intros d Hd; destruct (jsstr_eqb c d) eqn:E; [|reflexivity].
    apply jsstr_eqb_eq in E; subst; contradiction. }
  repeat split; apply F; simpl; tauto.
Qed.

Ltac not_ctrl := simpl; let H := fresh in intros H;
  repeat (destruct H as [H|H]; [discriminate H|]); exact H.

Lemma prompt_plain (p : jsstr) (chunks rest : list jsstr) :
  Forall (fun c => ~ In c [[10]; [13]; [4]; [3]; [127]; [8]]) chunks ->
  prompt_hidden_loop p ((chunks ++ rest)%list) = prompt_hidden_loop ((p ++ List.concat chunks)%list) rest.
Proof.
  revert p; induction chunks as [|c cs IH]; intros p Hf; simpl.
  - rewrite app_nil_r; reflexivity.
  - inversion Hf as [|? ? Hc Hcs]; subst.
    destruct (not_control c Hc) as (E1 & E2 & E3 & E4 & E5 & E6).
    rewrite E1, E2, E3, E4, E5, E6; simpl.
    rewrite IH by exact Hcs; rewrite app_assoc; reflexivity.
Qed.

(** X23: reading a hidden answer from chunks none of which is a control
    chunk ([\n], [\r], Ctrl-D, Ctrl-C, Backspace): it stays pending, then
    a [\n], [\r] or Ctrl-D chunk resolves it with the chunks concatenated and a
    Ctrl-C chunk exits with code [1].  A control character inside a longer
    chunk (a pasted ["secret\n"]) is kept as typed text. *)
Theorem X23_prompt_hidden_plain (chunks rest : list jsstr) (t : jsstr)
    (Hplain : Forall (fun c => ~ In c [[10]; [13]; [4]; [3]; [127]; [8]]) chunks) :
  prompt_hidden chunks = None /\
  (In t [[10]; [13]; [4]] -> prompt_hidden ((chunks ++ t :: rest)%list) = Some (Ret (List.concat chunks))) /\
  prompt_hidden ((chunks ++ [3] :: rest)%list) = Some (Exit Failure).
Proof.
  unfold prompt_hidden.
  split; [rewrite <- (app_nil_r chunks), prompt_plain by exact Hplain; reflexivity|].
  split.
  - intros Ht; rewrite prompt_plain by exact Hplain.
    simpl in Ht; destruct Ht as [<-|[<-|[<-|[]]]]; reflexivity.
  - rewrite prompt_plain by exact Hplain; reflexivity.
Qed.

(** Witness: a pasted ["pw\r"] chunk, then an [\r] chunk. *)
Lemma X23_prompt_hidden_plain_witness :
  prompt_hidden [(js "pw" ++ [13])%list] = None /\
  prompt_hidden (([(js "pw" ++ [13])%list] ++ [[13]])%list) = Some (Ret (js "pw" ++ [13])%list).
Proof.
  destruct (X23_prompt_hidden_plain [(js "pw" ++ [13])%list] [] [13]
              ltac:(constructor; [not_ctrl | constructor])) as (A & B & _).
  split; [exact A | exact (B ltac:(simpl; tauto))].
Defined.

(** X24: a Backspace chunk removes one UTF-16 code unit of the answer,
    not one character: after a chunk [c] it leaves all but the last unit
    of [c], so after an astral character (a surrogate pair) half of it
    stays. *)
Theorem X24_prompt_backspace_unit (p c b : jsstr) (rest : list jsstr)
    (Hc : ~ In c [[10]; [13]; [4]; [3]; [127]; [8]]) (Hne : c <> [])
    (Hb : In b [[127]; [8]]) :
  prompt_hidden_loop p (c :: b :: rest) = prompt_hidden_loop ((p ++ removelast c)%list) rest.
Proof.
  destruct (not_control c Hc) as (E1 & E2 & E3 & E4 & E5 & E6).
  simpl; rewrite E1, E2, E3, E4, E5, E6; simpl.
  assert (Hl : (0 < List.length (p ++ c)%list)%nat).
  { rewrite length_app; destruct c; [contradiction | simpl; lia]. }
  apply Nat.ltb_lt in Hl.
  simpl in Hb; destruct Hb as [<-|[<-|[]]]; simpl; rewrite Hl, removelast_app by exact Hne;
    reflexivity.
Qed.

(** Witness: an emoji (one chunk of two surrogates), Backspace, Enter. *)
Lemma X24_prompt_backspace_unit_witness :
  prompt_hidden [[55357; 56832]; [127]; [13]] = Some (Ret [55357]).
Proof.
  exact (eq_trans (X24_prompt_backspace_unit [] [55357; 56832] [127] [[13]]
                    ltac:(not_ctrl) ltac:(discriminate) ltac:(simpl; tauto)) eq_refl).
Defined.

(** X25: when [ANYLIST_EMAIL] or [ANYLIST_PASSWORD] is unset or empty,
    [requireConfig] ignores the environment entirely (also the other,
    non-empty variable): its outcome and the file accesses it makes are
    those it has with neither variable set, both credentials coming from
    the config file. *)
Theorem X25_requireConfig_env_fallback (homedir : string) (w : World)
    (Hhalf : match w_env_email w, w_env_password w with
             | Some e, Some p => str_truthy e && str_truthy p = false
             | _, _ => True
             end) :
  let w0 := mkWorld None None (w_fs w) (w_net w) (w_lists w) (w_client w) (w_next w) (w_trace w) in
  fst (requireConfig homedir w) = fst (requireConfig homedir w0) /\
  w_trace (snd (requireConfig homedir w)) = w_trace (snd (requireConfig homedir w0)).
Proof.
  destruct w as [ee ep fs net ls cl nx tr]; simpl in *.
  unfold requireConfig, loadConfigFromEnv, loadConfigM, bind, gets; cbv beta iota zeta.
  destruct ee as [e|], ep as [p|]; cbn [w_env_email w_env_password]; cbv beta iota;
    [rewrite Hhalf; cbv beta iota| | |]; cbn [w_fs w_trace push_event];
    repeat match goal with
           | |- context [match ?x with Some _ => _ | None => _ end] => destruct x
           | |- context [if ?b then _ else _] => destruct b
           end; split; reflexivity.
Qed.

(** Witness: an empty [ANYLIST_PASSWORD] beside an email, with the stale
    config file of [fs_stale]. *)
Lemma X25_requireConfig_env_fallback_witness :
  fst (requireConfig "/home/u" (mkWorld (Some (js "me@example.com")) (Some []) fs_stale [] [] false 0 [])) =
  fst (requireConfig "/home/u" (mkWorld None None fs_stale [] [] false 0 [])).
Proof.
  exact (proj1 (X25_requireConfig_env_fallback "/home/u"
           (mkWorld (Some (js "me@example.com")) (Some []) fs_stale [] [] false 0 []) eq_refl)).
Defined.
